(** * order_manager.py: a shallow embedding and its verified properties

    The program is a console tool that keeps two JSON files, the pending
    orders ([orders.json]) and the completed ones ([output_orders.json]).
    Python values are embedded as the inductive [pyval], the console and
    the two files as an explicit [world], and every function of the
    program as a state-passing function that either returns or raises.

    What is idealised: a file is the text it holds (it always decodes and
    can always be read and written, and the interpreter has no recursion
    or digit limit); text is the sequence of its UTF-8 bytes; floats are
    carried by their literals.  The string methods, [int], [repr] and
    [format] are parameters ([Builtins]). *)

From Stdlib Require Import ZArith String Ascii List Lia Bool.
From Stdlib Require Import Decimal DecimalString DecimalZ DecimalPos DecimalN.
From stdpp Require Import gmap strings list.

Local Open Scope Z_scope.

(** ** Python values *)

(** The values [json.load] can produce and the program can build.  A dict
    is an association list in insertion order, as Python keeps it.  A float
    is carried by its literal text: no property below is about float
    arithmetic. *)
#[warnings="-register-all"]
Inductive pyval : Type :=
  | PNone
  | PBool (b : bool)
  | PInt (n : Z)
  | PFloat (lit : string)
  | PStr (s : string)
  | PList (l : list pyval)
  | PDict (d : list (string * pyval)).

Inductive exn : Type :=
  | EOFError | KeyError | TypeError | ValueError
  | Unmodelled.  (* a path the embedding does not follow: float arithmetic *)

Inductive outcome (A : Type) : Type :=
  | Ret (a : A)
  | Raise (e : exn).
Arguments Ret {A} a.
Arguments Raise {A} e.

(** ** The [json] module: [json.dump(..., indent=4, ensure_ascii=False)]
       and [json.load] *)

Module Json.

Definition dquote : ascii := "034"%char.
Definition bslash : ascii := "092"%char.
Definition ch_bs : ascii := "008"%char.
Definition ch_tab : ascii := "009"%char.
Definition ch_nl : ascii := "010"%char.
Definition ch_ff : ascii := "012"%char.
Definition ch_cr : ascii := "013"%char.

Definition code (c : ascii) : N := N_of_ascii c.

(** *** Encoder *)

Definition hex_digit (n : N) : ascii :=
  if (n <? 10)%N then ascii_of_N (48 + n) else ascii_of_N (87 + n).

(** [ESCAPE_DCT] of [json.encoder], used through [ESCAPE] when
    [ensure_ascii] is false: only the quote, the backslash and the control
    characters below 0x20 are escaped. *)
Definition escape_char (c : ascii) : string :=
  if Ascii.eqb c dquote then String bslash (String dquote "")
  else if Ascii.eqb c bslash then String bslash (String bslash "")
  else if Ascii.eqb c ch_bs then String bslash "b"
  else if Ascii.eqb c ch_ff then String bslash "f"
  else if Ascii.eqb c ch_nl then String bslash "n"
  else if Ascii.eqb c ch_cr then String bslash "r"
  else if Ascii.eqb c ch_tab then String bslash "t"
  else if (code c <? 32)%N then
    String bslash
      ("u00" +:+ String (hex_digit (code c / 16))
                   (String (hex_digit (code c mod 16)) ""))
  else String c "".

Fixpoint escape (s : string) : string :=
  match s with
  | EmptyString => ""
  | String c r => escape_char c +:+ escape r
  end.

Definition encode_basestring (s : string) : string :=
  String dquote (escape s +:+ String dquote "").

(** [int.__repr__] *)
Definition int_repr (n : Z) : string := NilEmpty.string_of_int (Z.to_int n).

Fixpoint spaces (n : nat) : string :=
  match n with O => "" | S k => String " " (spaces k) end.

Definition newline_indent (level : nat) : string :=
  String ch_nl (spaces (4 * level)).

Fixpoint encode_more (enc : pyval -> string) (sep : string)
    (l : list pyval) : string :=
  match l with
  | [] => ""
  | y :: l' => sep +:+ enc y +:+ encode_more enc sep l'
  end.

Definition encode_pair (enc : pyval -> string) (kv : string * pyval) : string :=
  encode_basestring (fst kv) +:+ ": " +:+ enc (snd kv).

Fixpoint encode_more_pairs (enc : pyval -> string) (sep : string)
    (l : list (string * pyval)) : string :=
  match l with
  | [] => ""
  | kv :: l' => sep +:+ encode_pair enc kv +:+ encode_more_pairs enc sep l'
  end.

(** [_iterencode] with [_indent = 4 spaces], [item_separator = ","] and
    [key_separator = ": "], at nesting depth [level]. *)
Fixpoint encode (level : nat) (v : pyval) : string :=
  match v with
  | PNone => "null"
  | PBool true => "true"
  | PBool false => "false"
  | PInt n => int_repr n
  | PFloat lit => lit
  | PStr s => encode_basestring s
  | PList [] => "[]"
  | PList (x :: xs) =>
      "[" +:+ newline_indent (S level) +:+ encode (S level) x
      +:+ encode_more (encode (S level)) ("," +:+ newline_indent (S level)) xs
      +:+ newline_indent level +:+ "]"
  | PDict [] => "{}"
  | PDict (kv :: kvs) =>
      "{" +:+ newline_indent (S level) +:+ encode_pair (encode (S level)) kv
      +:+ encode_more_pairs (encode (S level))
            ("," +:+ newline_indent (S level)) kvs
      +:+ newline_indent level +:+ "}"
  end.

Definition dumps (v : pyval) : string := encode 0 v.

(** *** Decoder *)

Inductive scan (A : Type) : Type :=
  | Parsed (a : A) (rest : string)
  | Malformed
  | Starved.
Arguments Parsed {A} a rest.
Arguments Malformed {A}.
Arguments Starved {A}.

Definition is_ws (c : ascii) : bool :=
  Ascii.eqb c " " || Ascii.eqb c ch_tab || Ascii.eqb c ch_nl || Ascii.eqb c ch_cr.

Fixpoint skip_ws (s : string) : string :=
  match s with
  | EmptyString => ""
  | String c r => if is_ws c then skip_ws r else s
  end.

Definition is_digit (c : ascii) : bool :=
  (48 <=? code c)%N && (code c <=? 57)%N.

Definition hex_value (c : ascii) : option N :=
  let n := code c in
  if is_digit c then Some (n - 48)%N
  else if (97 <=? n)%N && (n <=? 102)%N then Some (n - 87)%N
  else if (65 <=? n)%N && (n <=? 70)%N then Some (n - 55)%N
  else None.

Definition hex4 (a b c d : ascii) : option N :=
  match hex_value a, hex_value b, hex_value c, hex_value d with
  | Some x, Some y, Some z, Some w => Some (((x * 16 + y) * 16 + z) * 16 + w)%N
  | _, _, _, _ => None
  end.

(** A Python [str] is modelled by the bytes of its UTF-8 encoding (lone
    surrogates by the three bytes the same scheme gives them), so [chr(n)]
    is the encoding of code point [n]. *)
Definition utf8_chr (n : N) : string :=
  let b (k : N) := ascii_of_N k in
  let cont (k : N) := b (128 + k mod 64)%N in
  if (n <? 128)%N then String (b n) ""
  else if (n <? 2048)%N then String (b (192 + n / 64)%N) (String (cont n) "")
  else if (n <? 65536)%N then
    String (b (224 + n / 4096)%N)
      (String (cont (n / 64)%N) (String (cont n) ""))
  else
    String (b (240 + n / 262144)%N)
      (String (cont (n / 4096)%N) (String (cont (n / 64)%N) (String (cont n) ""))).

Definition is_high_surrogate (n : N) : bool := (55296 <=? n)%N && (n <=? 56319)%N.
Definition is_low_surrogate (n : N) : bool := (56320 <=? n)%N && (n <=? 57343)%N.
Definition join_surrogates (hi lo : N) : N :=
  (65536 + (hi - 55296) * 1024 + (lo - 56320))%N.

(** [BACKSLASH] of [json.decoder] *)
Definition backslash_char (c : ascii) : option ascii :=
  if Ascii.eqb c dquote then Some dquote
  else if Ascii.eqb c bslash then Some bslash
  else if Ascii.eqb c "/" then Some "/"%char
  else if Ascii.eqb c "b" then Some ch_bs
  else if Ascii.eqb c "f" then Some ch_ff
  else if Ascii.eqb c "n" then Some ch_nl
  else if Ascii.eqb c "r" then Some ch_cr
  else if Ascii.eqb c "t" then Some ch_tab
  else None.

Definition prepend (p : string) (r : option (string * string))
    : option (string * string) :=
  match r with
  | Some (body, rest) => Some (p +:+ body, rest)
  | None => None
  end.

(** [scanstring(s, end, strict=True)]: [s] starts just after the opening
    quote; the result is the decoded text and what follows the closing
    quote. *)
Fixpoint scanstring (s : string) : option (string * string) :=
  match s with
  | EmptyString => None
  | String c r =>
    if Ascii.eqb c dquote then Some ("", r)
    else if Ascii.eqb c bslash then
      match r with
      | EmptyString => None
      | String e r1 =>
        if Ascii.eqb e "u" then
          match r1 with
          | String h1 (String h2 (String h3 (String h4 r2))) =>
            match hex4 h1 h2 h3 h4 with
            | None => None
            | Some uni =>
              if is_high_surrogate uni then
                match r2 with
                | String b (String u (String k1 (String k2 (String k3 (String k4 r3))))) =>
                  if Ascii.eqb b bslash && Ascii.eqb u "u" then
                    match hex4 k1 k2 k3 k4 with
                    | None => None
                    | Some uni2 =>
                      if is_low_surrogate uni2
                      then prepend (utf8_chr (join_surrogates uni uni2)) (scanstring r3)
                      else prepend (utf8_chr uni) (scanstring r2)
                    end
                  else prepend (utf8_chr uni) (scanstring r2)
                | _ => prepend (utf8_chr uni) (scanstring r2)
                end
              else prepend (utf8_chr uni) (scanstring r2)
            end
          | _ => None
          end
        else
          match backslash_char e with
          | None => None
          | Some ch => prepend (String ch "") (scanstring r1)
          end
      end
    else if (code c <? 32)%N then None
    else prepend (String c "") (scanstring r)
  end.

Fixpoint scan_digits (s : string) : string * string :=
  match s with
  | EmptyString => ("", "")
  | String c r =>
    if is_digit c then let '(ds, r') := scan_digits r in (String c ds, r')
    else ("", s)
  end.

(** The three groups of [NUMBER_RE]: the integer part (an optional minus,
    then either a single 0 or a non-zero digit and more digits), the
    optional fraction (a dot and digits) and the optional exponent (e or E,
    an optional sign, digits). *)
Definition match_integer (s : string) : option (string * string) :=
  let '(sign, s1) :=
    match s with
    | String c r => if Ascii.eqb c "-" then ("-", r) else ("", s)
    | EmptyString => ("", s)
    end in
  match s1 with
  | String c r =>
    if Ascii.eqb c "0" then Some (sign +:+ "0", r)
    else if is_digit c then
      let '(ds, r') := scan_digits r in Some (sign +:+ String c ds, r')
    else None
  | EmptyString => None
  end.

Definition match_frac (s : string) : string * string :=
  match s with
  | String c (String d r) =>
    if Ascii.eqb c "." && is_digit d
    then let '(ds, r') := scan_digits r in (String c (String d ds), r')
    else ("", s)
  | _ => ("", s)
  end.

Definition match_exp (s : string) : string * string :=
  match s with
  | String e r =>
    if Ascii.eqb e "e" || Ascii.eqb e "E" then
      let '(sg, r1) :=
        match r with
        | String c r' =>
          if Ascii.eqb c "+" || Ascii.eqb c "-" then (String c "", r') else ("", r)
        | EmptyString => ("", r)
        end in
      match r1 with
      | String d r2 =>
        if is_digit d
        then let '(ds, r3) := scan_digits r2 in (String e (sg +:+ String d ds), r3)
        else ("", s)
      | EmptyString => ("", s)
      end
    else ("", s)
  | EmptyString => ("", s)
  end.

(** [int(integer)] on the text matched by the first group *)
Definition int_of_literal (lit : string) : Z :=
  match NilEmpty.int_of_string lit with
  | Some d => Z.of_int d
  | None => 0
  end.

Definition match_number (s : string) : option (pyval * string) :=
  match match_integer s with
  | None => None
  | Some (i, r) =>
    let '(f, r1) := match_frac r in
    let '(e, r2) := match_exp r1 in
    match f, e with
    | EmptyString, EmptyString => Some (PInt (int_of_literal i), r2)
    | _, _ => Some (PFloat (i +:+ f +:+ e), r2)
    end
  end.

Fixpoint strip_prefix (p s : string) : option string :=
  match p with
  | EmptyString => Some s
  | String a p' =>
    match s with
    | String b s' => if Ascii.eqb a b then strip_prefix p' s' else None
    | EmptyString => None
    end
  end.

(** The loop of [JSONArray]: [s] is at the start of a value. *)
Fixpoint array_items (scn : string -> scan pyval) (n : nat) (s : string)
    : scan (list pyval) :=
  match n with
  | O => Starved
  | S n' =>
    match scn s with
    | Parsed v r =>
      match skip_ws r with
      | String c r2 =>
        if Ascii.eqb c "]" then Parsed [v] r2
        else if Ascii.eqb c "," then
          match array_items scn n' (skip_ws r2) with
          | Parsed vs r3 => Parsed (v :: vs) r3
          | Malformed => Malformed
          | Starved => Starved
          end
        else Malformed
      | EmptyString => Malformed
      end
    | Malformed => Malformed
    | Starved => Starved
    end
  end.

Definition parse_array (scn : string -> scan pyval) (n : nat) (s : string)
    : scan pyval :=
  match skip_ws s with
  | String c r =>
    if Ascii.eqb c "]" then Parsed (PList []) r
    else
      match array_items scn n (String c r) with
      | Parsed vs rest => Parsed (PList vs) rest
      | Malformed => Malformed
      | Starved => Starved
      end
  | EmptyString => Malformed
  end.

(** The loop of [JSONObject]: [s] is just after the opening quote of a
    key. *)
Fixpoint object_items (scn : string -> scan pyval) (n : nat) (s : string)
    : scan (list (string * pyval)) :=
  match n with
  | O => Starved
  | S n' =>
    match scanstring s with
    | None => Malformed
    | Some (key, r) =>
      match skip_ws r with
      | String c r2 =>
        if Ascii.eqb c ":" then
          match scn (skip_ws r2) with
          | Parsed v r3 =>
            match skip_ws r3 with
            | String d r5 =>
              if Ascii.eqb d "}" then Parsed [(key, v)] r5
              else if Ascii.eqb d "," then
                match skip_ws r5 with
                | String q r6 =>
                  if Ascii.eqb q dquote then
                    match object_items scn n' r6 with
                    | Parsed ps r7 => Parsed ((key, v) :: ps) r7
                    | Malformed => Malformed
                    | Starved => Starved
                    end
                  else Malformed
                | EmptyString => Malformed
                end
              else Malformed
            | EmptyString => Malformed
            end
          | Malformed => Malformed
          | Starved => Starved
          end
        else Malformed
      | EmptyString => Malformed
      end
    end
  end.

(** [d[k] = v] on an insertion-ordered dict *)
Fixpoint dict_set (d : list (string * pyval)) (k : string) (v : pyval)
    : list (string * pyval) :=
  match d with
  | [] => [(k, v)]
  | (k', v') :: d' =>
    if String.eqb k k' then (k, v) :: d' else (k', v') :: dict_set d' k v
  end.

(** [dict(pairs)] *)
Definition dict_of_pairs (ps : list (string * pyval)) : list (string * pyval) :=
  fold_left (fun d kv => dict_set d (fst kv) (snd kv)) ps [].

Definition parse_object (scn : string -> scan pyval) (n : nat) (s : string)
    : scan pyval :=
  match skip_ws s with
  | String c r =>
    if Ascii.eqb c "}" then Parsed (PDict []) r
    else if Ascii.eqb c dquote then
      match object_items scn n r with
      | Parsed ps rest => Parsed (PDict (dict_of_pairs ps)) rest
      | Malformed => Malformed
      | Starved => Starved
      end
    else Malformed
  | EmptyString => Malformed
  end.

Definition literal (p : string) (v : pyval) (s : string)
    (otherwise : scan pyval) : scan pyval :=
  match strip_prefix p s with
  | Some rest => Parsed v rest
  | None => otherwise
  end.

(** [scan_once]: one JSON value at the head of [s].  [fuel] bounds the
    nesting depth; [loads] gives it more than the text can use. *)
Fixpoint scan_once (fuel : nat) (s : string) : scan pyval :=
  match fuel with
  | O => Starved
  | S f =>
    match s with
    | EmptyString => Malformed
    | String c r =>
      if Ascii.eqb c dquote then
        match scanstring r with
        | Some (body, rest) => Parsed (PStr body) rest
        | None => Malformed
        end
      else if Ascii.eqb c "{" then parse_object (scan_once f) f r
      else if Ascii.eqb c "[" then parse_array (scan_once f) f r
      else
        literal "null" PNone s (
        literal "true" (PBool true) s (
        literal "false" (PBool false) s (
        match match_number s with
        | Some (v, rest) => Parsed v rest
        | None =>
          literal "NaN" (PFloat "NaN") s (
          literal "Infinity" (PFloat "Infinity") s (
          literal "-Infinity" (PFloat "-Infinity") s Malformed))
        end)))
    end
  end.

(** [json.loads]: leading and trailing white space is skipped, anything
    else after the value is the "Extra data" error.  [None] stands for
    [JSONDecodeError]. *)
Definition loads (s : string) : option pyval :=
  match scan_once (S (String.length s)) (skip_ws s) with
  | Parsed v rest =>
    match skip_ws rest with
    | EmptyString => Some v
    | String _ _ => None
    end
  | Malformed => None
  | Starved => None
  end.

End Json.

(** ** Builtins of the Python runtime

    The string methods, [int()], [repr()] and [format()] are taken as they
    are: everything below holds for whatever these builtins compute. *)
Class Builtins : Type := {
  (** [s.strip()] *)
  str_strip : string -> string;
  (** [s.upper()] *)
  str_upper : string -> string;
  (** [int(s)]; [None] is [ValueError] *)
  int_of_str : string -> option Z;
  (** [str(e)] for the [ValueError] that [int(s)] raises *)
  int_error : string -> string;
  (** [repr(v)] *)
  py_repr : pyval -> string;
  (** [format(v, spec)] with a non-empty [spec] *)
  py_format : pyval -> string -> outcome string
}.

(** ** Console and files *)

Inductive event : Type :=
  | Printed (s : string)     (* print(s) *)
  | Prompted (s : string).   (* the prompt written by input(s) *)

Record world : Type := World {
  stdin : list string;            (* the lines still to be read *)
  stdout : list event;            (* what has been written so far *)
  files : gmap string string      (* the text files of the working directory *)
}.

Definition M (A : Type) : Type := world -> outcome A * world.

Definition ret {A} (a : A) : M A := fun w => (Ret a, w).
Definition raise {A} (e : exn) : M A := fun w => (Raise e, w).
Definition lift {A} (o : outcome A) : M A := fun w => (o, w).
Definition bind {A B} (m : M A) (k : A -> M B) : M B :=
  fun w =>
    match m w with
    | (Ret a, w') => k a w'
    | (Raise e, w') => (Raise e, w')
    end.

Notation "'let*' x ':=' m 'in' k" := (bind m (fun x => k))
  (at level 10, x name, m at level 100, k at level 200, only parsing).
Notation "'let*' ' p ':=' m 'in' k" := (bind m (fun x => let 'p := x in k))
  (at level 10, p pattern, m at level 100, k at level 200, only parsing).

Definition print (s : string) : M unit :=
  fun w => (Ret tt, World (stdin w) (stdout w ++ [Printed s]) (files w)).

(** [input(prompt)]: the prompt is written, then a line is read;
    end of input is [EOFError]. *)
Definition input (prompt : string) : M string :=
  fun w =>
    let out := stdout w ++ [Prompted prompt] in
    match stdin w with
    | [] => (Raise EOFError, World [] out (files w))
    | line :: rest => (Ret line, World rest out (files w))
    end.

(** ** Operations on Python values *)

Fixpoint dict_get (d : list (string * pyval)) (k : string) : option pyval :=
  match d with
  | [] => None
  | (k', v) :: d' => if String.eqb k k' then Some v else dict_get d' k
  end.

(** [v[k]] for a string key [k] *)
Definition getitem (v : pyval) (k : string) : outcome pyval :=
  match v with
  | PDict d =>
    match dict_get d k with
    | Some x => Ret x
    | None => Raise KeyError
    end
  | _ => Raise TypeError
  end.

(** [v == s] for a string [s] *)
Definition eq_str (v : pyval) (s : string) : bool :=
  match v with
  | PStr s' => String.eqb s' s
  | _ => false
  end.

(** [bool] is a subclass of [int] *)
Definition as_int (v : pyval) : option Z :=
  match v with
  | PInt n => Some n
  | PBool true => Some 1
  | PBool false => Some 0
  | _ => None
  end.

Fixpoint str_repeat (s : string) (n : nat) : string :=
  match n with O => "" | S k => s +:+ str_repeat s k end.

Fixpoint list_repeat (l : list pyval) (n : nat) : list pyval :=
  match n with O => [] | S k => l ++ list_repeat l k end.

(** [a * b] *)
Definition py_mul (a b : pyval) : outcome pyval :=
  match as_int a, as_int b with
  | Some x, Some y => Ret (PInt (x * y))
  | Some x, None =>
    match b with
    | PStr s => Ret (PStr (str_repeat s (Z.to_nat x)))
    | PList l => Ret (PList (list_repeat l (Z.to_nat x)))
    | PFloat _ => Raise Unmodelled
    | _ => Raise TypeError
    end
  | None, Some y =>
    match a with
    | PStr s => Ret (PStr (str_repeat s (Z.to_nat y)))
    | PList l => Ret (PList (list_repeat l (Z.to_nat y)))
    | PFloat _ => Raise Unmodelled
    | _ => Raise TypeError
    end
  | None, None =>
    match a, b with
    | PFloat _, PFloat _ => Raise Unmodelled
    | _, _ => Raise TypeError
    end
  end.

(** [acc + x] where [acc] is the [int] that [sum] has reached *)
Definition sum_add (acc : Z) (x : pyval) : outcome Z :=
  match as_int x with
  | Some n => Ret (acc + n)
  | None =>
    match x with
    | PFloat _ => Raise Unmodelled
    | _ => Raise TypeError
    end
  end.

Fixpoint chars (s : string) : list pyval :=
  match s with
  | EmptyString => []
  | String c r => PStr (String c "") :: chars r
  end.

(** [iter(v)]: the elements of a list, the keys of a dict, the characters
    of a str.  (The characters are given byte by byte; the program only
    subscripts them with a string key, which raises on any str.) *)
Definition py_iter (v : pyval) : outcome (list pyval) :=
  match v with
  | PList l => Ret l
  | PDict d => Ret (map (fun kv => PStr (fst kv)) d)
  | PStr s => Ret (chars s)
  | _ => Raise TypeError
  end.

(** [bool(v)]; [None] where the embedding does not decide it (floats) *)
Definition truthy (v : pyval) : option bool :=
  match v with
  | PNone => Some false
  | PBool b => Some b
  | PInt n => Some (negb (n =? 0))
  | PFloat _ => None
  | PStr s => Some (negb (String.eqb s ""))
  | PList l => Some (match l with [] => false | _ => true end)
  | PDict d => Some (match d with [] => false | _ => true end)
  end.

(** ** The program *)

Section Program.
Context {B : Builtins}.

(** [str(v)], which is what an f-string field without a format gives *)
Definition py_str (v : pyval) : string :=
  match v with
  | PStr s => s
  | _ => py_repr v
  end.

Definition INPUT_FILE : string := "orders.json".
Definition OUTPUT_FILE : string := "output_orders.json".

(** [load_data]: a missing file ([FileNotFoundError]) and a text that is
    not JSON ([json.JSONDecodeError]) both give the empty list. *)
Definition load_data (filename : string) : M pyval :=
  fun w =>
    match files w !! filename with
    | None => (Ret (PList []), w)
    | Some text =>
      match Json.loads text with
      | Some v => (Ret v, w)
      | None => (Ret (PList []), w)
      end
    end.

(** [save_orders]: the file is opened for writing and receives
    [json.dump(orders, f, indent=4, ensure_ascii=False)]. *)
Definition save_orders (filename : string) (orders : pyval) : M unit :=
  fun w =>
    (Ret tt, World (stdin w) (stdout w) (<[filename := Json.dumps orders]> (files w))).

(** The generator [item["price"] * item["quantity"] for item in ...]
    consumed by [sum], whose accumulator starts at [0]. *)
Fixpoint sum_subtotals (acc : Z) (items : list pyval) : outcome Z :=
  match items with
  | [] => Ret acc
  | item :: rest =>
    match getitem item "price" with
    | Raise e => Raise e
    | Ret p =>
      match getitem item "quantity" with
      | Raise e => Raise e
      | Ret q =>
        match py_mul p q with
        | Raise e => Raise e
        | Ret x =>
          match sum_add acc x with
          | Raise e => Raise e
          | Ret acc' => sum_subtotals acc' rest
          end
        end
      end
    end
  end.

Definition calculate_order_total (order : pyval) : outcome Z :=
  match getitem order "items" with
  | Raise e => Raise e
  | Ret its =>
    match py_iter its with
    | Raise e => Raise e
    | Ret l => sum_subtotals 0 l
    end
  end.

(** The listing loop of [process_order], [enumerate(orders, 1)] *)
Fixpoint print_pending (i : Z) (orders : list pyval) : M unit :=
  match orders with
  | [] => ret tt
  | order :: rest =>
    let* id := lift (getitem order "order_id") in
    let* customer := lift (getitem order "customer") in
    let* _ := print (Json.int_repr i +:+ ". 訂單編號: " +:+ py_str id
                     +:+ " - 客戶: " +:+ py_str customer) in
    print_pending (i + 1) rest
  end.

Definition msg_no_pending : string := "目前沒有待處理訂單。".
Definition msg_cancelled : string := "出餐流程已取消。".
Definition msg_invalid_choice : string := "錯誤：請輸入有效的訂單編號".
Definition msg_completed (id : pyval) : string :=
  "訂單 " +:+ py_str id +:+ " 已出餐完成".

(** [process_order].  The list [orders] is mutated in place by [pop]; the
    embedding returns the list as the call leaves it, next to the pair the
    Python function returns ([PNone] is [None]). *)
Definition process_order (orders : list pyval) : M (string * pyval * list pyval) :=
  match orders with
  | [] => ret (msg_no_pending, PNone, orders)
  | _ :: _ =>
    let* _ := print (String Json.ch_nl "======== 待處理訂單列表 ========") in
    let* _ := print_pending 1 orders in
    let* _ := print "================================" in
    let* line := input "請選擇要出餐的訂單編號 (輸入數字或按 Enter 取消): " in
    let choice := str_strip line in
    if String.eqb choice "" then ret (msg_cancelled, PNone, orders)
    else
      match int_of_str choice with
      | None => ret (msg_invalid_choice, PNone, orders)
      | Some n =>
        let index := n - 1 in
        if (0 <=? index) && (index <? Z.of_nat (length orders)) then
          match orders !! Z.to_nat index with
          | None => ret (msg_invalid_choice, PNone, orders)  (* not reached *)
          | Some completed_order =>
            let orders' := delete (Z.to_nat index) orders in
            let* existing_output := load_data OUTPUT_FILE in
            match existing_output with
            | PList done =>
              let* _ := save_orders OUTPUT_FILE (PList (done ++ [completed_order])) in
              let* _ := save_orders INPUT_FILE (PList orders') in
              let* id := lift (getitem completed_order "order_id") in
              ret (msg_completed id, completed_order, orders')
            | _ => raise TypeError
            end
          end
        else ret (msg_invalid_choice, PNone, orders)
      end
  end.

(** The generator [o["order_id"] == order_id for o in orders] consumed by
    [any], which stops at the first true element. *)
Fixpoint any_order_id (orders : list pyval) (order_id : string) : outcome bool :=
  match orders with
  | [] => Ret false
  | o :: rest =>
    match getitem o "order_id" with
    | Raise e => Raise e
    | Ret v => if eq_str v order_id then Ret true else any_order_id rest order_id
    end
  end.

Definition prompt_item_name : string := "請輸入餐點名稱（直接按 Enter 結束輸入）: ".
Definition prompt_price : string := "請輸入單價: ".
Definition prompt_quantity : string := "請輸入數量: ".
Definition msg_need_item : string := "錯誤：至少需要一項餐點".
Definition msg_input_error (e : string) : string := "輸入錯誤: " +:+ e.

Definition make_item (name : string) (price quantity : Z) : pyval :=
  PDict [("name", PStr name); ("price", PInt price); ("quantity", PInt quantity)].

(** The [while True] loop of [add_order], by recursion on the lines still
    to be read: every iteration reads at least one.  The result is the
    outcome of the loop with the lines left and the output so far. *)
Fixpoint item_loop (inp : list string) (out : list event) (items : list pyval)
    : outcome (list pyval) * list string * list event :=
  match inp with
  | [] => (Raise EOFError, [], out ++ [Prompted prompt_item_name])
  | l1 :: inp1 =>
    let out1 := out ++ [Prompted prompt_item_name] in
    let name := str_strip l1 in
    if String.eqb name "" then
      match items with
      | [] => item_loop inp1 (out1 ++ [Printed msg_need_item]) items
      | _ :: _ => (Ret items, inp1, out1)
      end
    else
      match inp1 with
      | [] => (Raise EOFError, [], out1 ++ [Prompted prompt_price])
      | l2 :: inp2 =>
        let out2 := out1 ++ [Prompted prompt_price] in
        match int_of_str l2 with
        | None =>
          item_loop inp2 (out2 ++ [Printed (msg_input_error (int_error l2))]) items
        | Some price =>
          if price <? 0 then
            item_loop inp2 (out2 ++ [Printed (msg_input_error "價格不可為負數")]) items
          else
            match inp2 with
            | [] => (Raise EOFError, [], out2 ++ [Prompted prompt_quantity])
            | l3 :: inp3 =>
              let out3 := out2 ++ [Prompted prompt_quantity] in
              match int_of_str l3 with
              | None =>
                item_loop inp3
                  (out3 ++ [Printed (msg_input_error (int_error l3))]) items
              | Some quantity =>
                if quantity <=? 0 then
                  item_loop inp3
                    (out3 ++ [Printed (msg_input_error "數量必須大於零")]) items
                else
                  item_loop inp3 out3 (items ++ [make_item name price quantity])
              end
            end
        end
      end
  end.

Definition enter_items : M (list pyval) :=
  fun w =>
    let '(r, inp, out) := item_loop (stdin w) (stdout w) [] in
    (r, World inp out (files w)).

Definition msg_empty_id : string := "錯誤：訂單編號不可為空".
Definition msg_duplicate (order_id : string) : string :=
  "錯誤：訂單編號 " +:+ order_id +:+ " 已存在".
Definition msg_empty_customer : string := "錯誤：顧客姓名不可為空".
Definition msg_added (order_id : string) : string :=
  "訂單 " +:+ order_id +:+ " 新增成功".

Definition make_order (order_id customer : string) (items : list pyval) : pyval :=
  PDict [("order_id", PStr order_id); ("customer", PStr customer);
         ("items", PList items)].

(** [add_order].  The list is mutated in place by [append]; the embedding
    returns it next to the message. *)
Definition add_order (orders : list pyval) : M (string * list pyval) :=
  let* line := input "請輸入訂單編號: " in
  let order_id := str_upper (str_strip line) in
  if String.eqb order_id "" then ret (msg_empty_id, orders)
  else
    let* dup := lift (any_order_id orders order_id) in
    if (dup : bool) then ret (msg_duplicate order_id, orders)
    else
      let* line2 := input "請輸入顧客姓名: " in
      let customer := str_strip line2 in
      if String.eqb customer "" then ret (msg_empty_customer, orders)
      else
        let* items := enter_items in
        let new_order := make_order order_id customer items in
        let orders' := orders ++ [new_order] in
        let* _ := save_orders INPUT_FILE (PList orders') in
        ret (msg_added order_id, orders').

(** An f-string field with a format spec *)
Definition fmt (v : pyval) (spec : string) : M string := lift (py_format v spec).

Definition rule (c : string) (n : nat) : string := str_repeat c n.

(** The inner loop of [print_order_report] *)
Fixpoint report_items (items : list pyval) : M unit :=
  match items with
  | [] => ret tt
  | item :: rest =>
    let* price := lift (getitem item "price") in
    let* quantity := lift (getitem item "quantity") in
    let* subtotal := lift (py_mul price quantity) in
    let* name := lift (getitem item "name") in
    let* f1 := fmt name "<12" in
    let* f2 := fmt price ">8," in
    let* f3 := fmt quantity ">10" in
    let* f4 := fmt subtotal ">15," in
    let* _ := print (f1 +:+ f2 +:+ f3 +:+ f4) in
    report_items rest
  end.

Definition report_order (order : pyval) : M unit :=
  let* id := lift (getitem order "order_id") in
  let* _ := print ("訂單編號: " +:+ py_str id) in
  let* customer := lift (getitem order "customer") in
  let* _ := print ("客戶姓名: " +:+ py_str customer) in
  let* _ := print (rule "-" 60) in
  let* h1 := fmt (PStr "品項名稱") "<10" in
  let* h2 := fmt (PStr "單價") ">8" in
  let* h3 := fmt (PStr "數量") ">10" in
  let* h4 := fmt (PStr "小計") ">15" in
  let* _ := print (h1 +:+ h2 +:+ h3 +:+ h4) in
  let* _ := print (rule "-" 60) in
  let* its := lift (getitem order "items") in
  let* l := lift (py_iter its) in
  let* _ := report_items l in
  let* _ := print (rule "-" 60) in
  let* total := lift (calculate_order_total order) in
  let* ft := fmt (PInt total) "," in
  let* _ := print ("訂單總額: " +:+ ft +:+ "元") in
  print (rule "=" 60 +:+ String Json.ch_nl "").

Fixpoint report_orders (orders : list pyval) : M unit :=
  match orders with
  | [] => ret tt
  | order :: rest => let* _ := report_order order in report_orders rest
  end.

Definition print_order_report (orders : list pyval) (title : string) : M unit :=
  let* _ := print (String Json.ch_nl (rule "=" 24 +:+ " " +:+ title +:+ " "
                                       +:+ rule "=" 24)) in
  report_orders orders.

(** ** The menu *)

Inductive status : Type := Running | Exited.

Definition msg_shutdown : string := "系統已關閉".
Definition msg_invalid_option : string := "錯誤：無效的選項，請輸入 1-4".

Definition print_menu : M unit :=
  let* _ := print (String Json.ch_nl (rule "=" 15 +:+ " 訂單管理系統 " +:+ rule "=" 15)) in
  let* _ := print "1. 新增訂單" in
  let* _ := print "2. 顯示訂單報表" in
  let* _ := print "3. 出餐處理" in
  let* _ := print "4. 離開系統" in
  print (rule "=" 40).

Definition banner : string := String Json.ch_nl (rule "=" 60).

(** The branches of the loop body on the trimmed choice: [Exited] is the
    [break]. *)
Definition dispatch (choice : string) (orders : list pyval) : M (status * list pyval) :=
  if String.eqb choice "" || String.eqb choice "4" then
    let* _ := print msg_shutdown in
    ret (Exited, orders)
  else if String.eqb choice "1" then
    let* '(result, orders') := add_order orders in
    let* _ := print banner in
    let* _ := print result in
    let* _ := print (rule "=" 60) in
    ret (Running, orders')
  else if String.eqb choice "2" then
    let* _ := print_order_report orders "訂單報表" in
    ret (Running, orders)
  else if String.eqb choice "3" then
    let* '(msg, order, orders') := process_order orders in
    let* _ := print banner in
    let* _ := print msg in
    let* _ :=
      match truthy order with
      | Some true => print_order_report [order] "出餐明細"
      | Some false => ret tt
      | None => raise Unmodelled
      end in
    let* _ := print (rule "=" 60) in
    ret (Running, orders')
  else
    let* _ := print msg_invalid_option in
    ret (Running, orders).

(** One iteration of the [while True] loop of [main_menu]: the menu is
    printed, a choice is read and trimmed, and the branch is taken. *)
Definition menu_step (orders : list pyval) : M (status * list pyval) :=
  let* _ := print_menu in
  let* line := input "請輸入選項: " in
  dispatch (str_strip line) orders.

(** The loop of [main_menu] as the closure of [menu_step]. *)
Inductive menu_loop : list pyval -> world -> outcome unit -> world -> Prop :=
  | loop_break orders w orders' w' :
      menu_step orders w = (Ret (Exited, orders'), w') ->
      menu_loop orders w (Ret tt) w'
  | loop_raise orders w e w' :
      menu_step orders w = (Raise e, w') ->
      menu_loop orders w (Raise e) w'
  | loop_again orders w orders' w' r w'' :
      menu_step orders w = (Ret (Running, orders'), w') ->
      menu_loop orders' w' r w'' ->
      menu_loop orders w r w''.

(** [main_menu]: the pending orders are loaded once, then the loop runs.
    The embedding follows the program when the file holds a JSON array
    (or is missing or not JSON), as [List[Dict]] says. *)
Inductive main_menu : world -> outcome unit -> world -> Prop :=
  | main_run w orders w' r w'' :
      load_data INPUT_FILE w = (Ret (PList orders), w') ->
      menu_loop orders w' r w'' ->
      main_menu w r w''.

End Program.

(** ** Orders as records

    The shape [add_order] builds: the properties of well-formed orders are
    stated over these records and their images in [pyval]. *)

Record Item : Type := mkItem {
  name : string;
  price : Z;
  quantity : Z
}.

Record Order : Type := mkOrder {
  order_id : string;
  customer : string;
  items : list Item
}.

Section Shapes.
Context {B : Builtins}.

Definition item_to_py (it : Item) : pyval :=
  make_item (name it) (price it) (quantity it).

Definition order_to_py (o : Order) : pyval :=
  make_order (order_id o) (customer o) (map item_to_py (items o)).

End Shapes.

(** The sum of price times quantity over a list of items *)
Definition total_of (its : list Item) : Z :=
  fold_right (fun it acc => price it * quantity it + acc) 0 its.

(** An order the listing of [process_order] can print *)
Definition listable (o : pyval) : Prop :=
  (exists id, getitem o "order_id" = Ret id) /\
  (exists c, getitem o "customer" = Ret c).

(** An item as [add_order] stores it *)
Definition stored_item (v : pyval) : Prop :=
  exists n p q, v = make_item n p q /\ n <> "" /\ 0 <= p /\ 1 <= q.

(** ** Values that [json.dump] writes and [json.load] reads back

    No float, and no key twice in a dict (a Python dict never has one). *)
#[warnings="-register-all"]
Inductive plain : pyval -> Prop :=
  | plain_none : plain PNone
  | plain_bool b : plain (PBool b)
  | plain_int n : plain (PInt n)
  | plain_str s : plain (PStr s)
  | plain_list l : Forall plain l -> plain (PList l)
  | plain_dict d :
      NoDup (map fst d) -> Forall (fun kv => plain (snd kv)) d -> plain (PDict d).

(** The number of nodes of a value *)
Fixpoint size (v : pyval) : nat :=
  match v with
  | PList l => S (fold_right (fun x n => size x + n)%nat O l)
  | PDict d => S (fold_right (fun kv n => size (snd kv) + n)%nat O d)
  | _ => 1%nat
  end.

(** What may follow a number for the number to end there *)
Definition delimits (rest : string) : bool :=
  match rest with
  | EmptyString => true
  | String c _ =>
    negb (Json.is_digit c || Ascii.eqb c "." || Ascii.eqb c "e" || Ascii.eqb c "E")
  end.

(** ** A runtime for ASCII text

    The builtins on ASCII strings, to run the program on examples. *)
Module AsciiRuntime.

(** White space for [str.strip] *)
Definition is_space (c : ascii) : bool :=
  let n := Json.code c in
  ((9 <=? n)%N && (n <=? 13)%N) || ((28 <=? n)%N && (n <=? 32)%N).

(** White space for [int] *)
Definition is_blank (c : ascii) : bool :=
  let n := Json.code c in
  ((9 <=? n)%N && (n <=? 13)%N) || (n =? 32)%N.

Fixpoint lstrip (sp : ascii -> bool) (s : string) : string :=
  match s with
  | EmptyString => ""
  | String c r => if sp c then lstrip sp r else s
  end.

Fixpoint rstrip (sp : ascii -> bool) (s : string) : string :=
  match s with
  | EmptyString => ""
  | String c r =>
    match rstrip sp r with
    | EmptyString => if sp c then "" else String c ""
    | r' => String c r'
    end
  end.

Definition strip (s : string) : string := rstrip is_space (lstrip is_space s).

Definition upper_char (c : ascii) : ascii :=
  let n := Json.code c in
  if (97 <=? n)%N && (n <=? 122)%N then ascii_of_N (n - 32) else c.

Fixpoint upper (s : string) : string :=
  match s with
  | EmptyString => ""
  | String c r => String (upper_char c) (upper r)
  end.

(** Digits with single underscores between them *)
Fixpoint digits_value (acc : Z) (after_digit : bool) (s : string) : option Z :=
  match s with
  | EmptyString => if after_digit then Some acc else None
  | String c r =>
    if Json.is_digit c then
      digits_value (10 * acc + Z.of_N (Json.code c - 48)) true r
    else if Ascii.eqb c "_" && after_digit then
      match r with
      | String d _ => if Json.is_digit d then digits_value acc false r else None
      | EmptyString => None
      end
    else None
  end.

Definition int_of (s : string) : option Z :=
  match rstrip is_blank (lstrip is_blank s) with
  | String c r =>
    if Ascii.eqb c "-" then option_map Z.opp (digits_value 0 false r)
    else if Ascii.eqb c "+" then digits_value 0 false r
    else digits_value 0 false (String c r)
  | EmptyString => None
  end.

Definition int_err (s : string) : string :=
  "invalid literal for int() with base 10: '" +:+ s +:+ "'".

Fixpoint group3 (ds : list ascii) : list ascii :=
  match ds with
  | a :: b :: c :: (_ :: _) as rest => a :: b :: c :: ","%char :: group3 rest
  | _ => ds
  end.

(** The digits of [n] with a comma every three, as [format(n, ",")] *)
Definition with_commas (n : Z) : string :=
  let ds := list_ascii_of_string (Json.int_repr (Z.abs n)) in
  let body := string_of_list_ascii (rev (group3 (rev ds))) in
  if n <? 0 then String "-" body else body.

Definition pad_left (w : nat) (s : string) : string :=
  Json.spaces (w - String.length s) +:+ s.
Definition pad_right (w : nat) (s : string) : string :=
  s +:+ Json.spaces (w - String.length s).

Definition width_of (s : string) : nat :=
  match int_of s with Some n => Z.to_nat n | None => O end.

Fixpoint drop_comma (s : string) : string * bool :=
  match s with
  | EmptyString => ("", false)
  | String c r =>
    match r with
    | EmptyString => if Ascii.eqb c "," then ("", true) else (s, false)
    | _ => let '(r', b) := drop_comma r in (String c r', b)
    end
  end.

(** [format(v, spec)] for the specs of the report: an optional [<] or
    [>], a width, an optional comma. *)
Definition format (v : pyval) (spec : string) : outcome string :=
  let '(align, rest) :=
    match spec with
    | String c r =>
      if Ascii.eqb c "<" then (Some true, r)
      else if Ascii.eqb c ">" then (Some false, r)
      else (None, spec)
    | EmptyString => (None, spec)
    end in
  let '(w, comma) := drop_comma rest in
  let width := match w with EmptyString => O | _ => width_of w end in
  match v with
  | PStr s =>
    if comma then Raise ValueError
    else
      match align with
      | Some false => Ret (pad_left width s)
      | _ => Ret (pad_right width s)
      end
  | PNone | PList _ | PDict _ => Raise TypeError
  | PFloat _ => Raise Unmodelled
  | PInt _ | PBool _ =>
    match as_int v with
    | Some n =>
      let body := if comma then with_commas n else Json.int_repr n in
      match align with
      | Some true => Ret (pad_right width body)
      | _ => Ret (pad_left width body)
      end
    | None => Raise TypeError
    end
  end.

(** [repr(v)] for the values whose repr has no quoting to do *)
Definition repr (v : pyval) : string :=
  match v with
  | PNone => "None"
  | PBool true => "True"
  | PBool false => "False"
  | PInt n => Json.int_repr n
  | PFloat lit => lit
  | PStr s => "'" +:+ s +:+ "'"
  | PList _ => "[...]"
  | PDict _ => "{...}"
  end.

#[export] Instance ascii_builtins : Builtins := {|
  str_strip := strip;
  str_upper := upper;
  int_of_str := int_of;
  int_error := int_err;
  py_repr := repr;
  py_format := format
|}.

End AsciiRuntime.

(** ** Vocabulary of the statements *)

(** The first character of an encoded value is neither white space nor a
    closing bracket. *)
Definition opens_value (s : string) : Prop :=
  exists c r, s = String c r /\ Json.is_ws c = false /\
              Ascii.eqb c "]" = false /\ Ascii.eqb c "}" = false.

Section Vocabulary.
Context {B : Builtins}.

(** [process_order] fails with [msg]: it returns [msg] and no order, the list is
    the one it was given, no file is written, and the line was read. *)
Definition refuses (orders : list pyval) (w : world) (msg : string)
    (rest : list string) : Prop :=
  exists out,
    process_order orders w
    = (Ret (msg, PNone, orders), World rest (stdout w ++ out) (files w)).

Definition prompt_order_id : event := Prompted "請輸入訂單編號: ".
Definition prompt_customer : event := Prompted "請輸入顧客姓名: ".

(** An order with an [order_id] entry *)
Definition has_order_id (o : pyval) : Prop := exists v, getitem o "order_id" = Ret v.

(** [add_order] fails with [msg]: it returns [msg], the list is the one it
    was given, and no file is written. *)
Definition rejects (orders : list pyval) (w : world) (msg : string)
    (rest : list string) (asked : list event) : Prop :=
  add_order orders w = (Ret (msg, orders), World rest (stdout w ++ asked) (files w)).

(** One complete entry: the name, price and quantity lines of an item *)
Definition entry_ok (e : string * string * string) : Prop :=
  let '(n, p, q) := e in
  str_strip n <> "" /\
  (exists pv, int_of_str p = Some pv /\ 0 <= pv) /\
  (exists qv, int_of_str q = Some qv /\ 1 <= qv).

Definition entry_lines (e : string * string * string) : list string :=
  let '(n, p, q) := e in [n; p; q].

Definition entry_item (e : string * string * string) : pyval :=
  let '(n, p, q) := e in
  make_item (str_strip n)
    (match int_of_str p with Some v => v | None => 0 end)
    (match int_of_str q with Some v => v | None => 0 end).

(** What one iteration writes before it reads the choice *)
Definition menu_events : list event :=
  [Printed (String Json.ch_nl (rule "=" 15 +:+ " 訂單管理系統 " +:+ rule "=" 15));
   Printed "1. 新增訂單"; Printed "2. 顯示訂單報表"; Printed "3. 出餐處理";
   Printed "4. 離開系統"; Printed (rule "=" 40); Prompted "請輸入選項: "].

(** [format] succeeds on the strings and the integers of the report with
    the specs the report uses. *)
Definition report_formats : Prop :=
  (forall s spec, In spec ["<10"; ">8"; ">10"; ">15"; "<12"] ->
                  exists r, py_format (PStr s) spec = Ret r) /\
  (forall n spec, In spec [">8,"; ">10"; ">15,"; ","] ->
                  exists r, py_format (PInt n) spec = Ret r).

End Vocabulary.

(** ** Vocabulary of the further properties *)

(** Every run of [m] takes a world to one related to it by [R], whether
    it returns or raises. *)
Definition respects (R : world -> world -> Prop) {A} (m : M A) : Prop :=
  forall w r w', m w = (r, w') -> R w w'.

(** Nothing is read, no file is touched, the output is only extended. *)
Definition only_prints (w w' : world) : Prop :=
  stdin w' = stdin w /\ files w' = files w /\ exists out, stdout w' = stdout w ++ out.

Section Footprints.
Context {B : Builtins}.

(** The lines left are a suffix of the lines there were, the output is
    only extended, and no file but the two of the program is touched. *)
Definition footprint (w w' : world) : Prop :=
  stdin w' `suffix_of` stdin w /\
  (exists out, stdout w' = stdout w ++ out) /\
  (forall path, path <> INPUT_FILE -> path <> OUTPUT_FILE ->
                files w' !! path = files w !! path).

End Footprints.

Section Invariants.
Context {B : Builtins}.



(** What a call or an iteration can do to the pending list and the files:
    nothing; an order appended and the pending file written; a pending
    order removed and both files written. *)
Inductive transition (orders : list pyval) (w : world) : list pyval -> world -> Prop :=
  | stays w' :
      files w' = files w ->
      transition orders w orders w'
  | adds id c its w' :
      id <> "" -> c <> "" -> its <> [] -> Forall stored_item its ->
      any_order_id orders id = Ret false ->
      files w' = <[INPUT_FILE := Json.dumps (PList (orders ++ [make_order id c its]))]>
                   (files w) ->
      transition orders w (orders ++ [make_order id c its]) w'
  | fulfils i o done w' :
      orders !! i = Some o ->
      fst (load_data OUTPUT_FILE w) = Ret (PList done) ->
      files w' = <[INPUT_FILE := Json.dumps (PList (delete i orders))]>
                   (<[OUTPUT_FILE := Json.dumps (PList (done ++ [o]))]> (files w)) ->
      transition orders w (delete i orders) w'.

(** An item and an order as [add_order] accepts them *)
Definition valid_item (it : Item) : Prop :=
  name it <> "" /\ 0 <= price it /\ 1 <= quantity it.

Definition valid_order (o : Order) : Prop :=
  order_id o <> "" /\ customer o <> "" /\ items o <> [] /\ Forall valid_item (items o).

(** A pending list of valid orders with no id twice *)
Definition well_formed (orders : list pyval) : Prop :=
  exists os, orders = map order_to_py os /\ Forall valid_order os /\
             NoDup (map order_id os).

(** The states of the menu loop: the pending list and the world at the
    top of an iteration, from a given start. *)
Inductive reaches (orders : list pyval) (w : world) : list pyval -> world -> Prop :=
  | reaches_start : reaches orders w orders w
  | reaches_next orders1 w1 orders2 w2 :
      reaches orders w orders1 w1 ->
      menu_step orders1 w1 = (Ret (Running, orders2), w2) ->
      reaches orders w orders2 w2.

End Invariants.

Section Reports.
Context {B : Builtins}.















End Reports.

(** An item whose price and quantity are the integers [pq] (a boolean
    counts as [0] or [1]) *)
Definition priced (it : pyval) (pq : Z * Z) : Prop :=
  exists pv qv,
    getitem it "price" = Ret pv /\ getitem it "quantity" = Ret qv /\
    as_int pv = Some (fst pq) /\ as_int qv = Some (snd pq).

Definition sum_products (pqs : list (Z * Z)) : Z :=
  fold_right (fun pq acc => fst pq * snd pq + acc) 0 pqs.

(** A text of white space only *)
Definition white (s : string) : Prop := Json.skip_ws s = "".

(** Two orders for the examples *)
Definition order_a1 : pyval := order_to_py (mkOrder "A1" "Bob" [mkItem "Cola" 20 3]).


(** * Properties *)

(** ** Strings *)

#[local] Arguments String.append !_ _ / : simpl nomatch.

Lemma append_assoc (a b c : string) : (a +:+ b) +:+ c = a +:+ (b +:+ c).
Proof. induction a as [|x a IH]; simpl; [reflexivity | now rewrite IH]. Qed.

Lemma append_nil_r (a : string) : a +:+ "" = a.
Proof. induction a as [|x a IH]; simpl; [reflexivity | now rewrite IH]. Qed.

Lemma length_append (a b : string) :
  String.length (a +:+ b) = (String.length a + String.length b)%nat.
Proof. induction a as [|x a IH]; simpl; [reflexivity | now rewrite IH]. Qed.

(** ** The JSON codec: what is written is read back *)

Module JsonFacts.
Import Json.

(** One character of a string, escaped by the encoder, is read back as
    that character. *)
Lemma scanstring_escape_char c tail :
  scanstring (escape_char c +:+ tail) = prepend (String c "") (scanstring tail).
Proof.
  destruct c as [[] [] [] [] [] [] [] []]; reflexivity.
Qed.

Lemma scanstring_escape s rest :
  scanstring (escape s +:+ String dquote rest) = Some (s, rest).
Proof.
  induction s as [|c s IH]; [reflexivity|].
  cbn [escape]. rewrite append_assoc, scanstring_escape_char, IH. reflexivity.
Qed.

(** *** Numbers *)

Lemma delimits_no_digit c r : delimits (String c r) = true -> is_digit c = false.
Proof.
  cbn [delimits]. destruct (is_digit c); [discriminate | reflexivity].
Qed.

Lemma scan_digits_stop rest :
  delimits rest = true -> scan_digits rest = ("", rest).
Proof.
  destruct rest as [|c r]; [reflexivity|]. intros H.
  cbn [scan_digits]. now rewrite (delimits_no_digit _ _ H).
Qed.

Lemma scan_digits_uint d rest :
  delimits rest = true ->
  scan_digits (NilEmpty.string_of_uint d +:+ rest) = (NilEmpty.string_of_uint d, rest).
Proof.
  intros H. induction d; cbn [NilEmpty.string_of_uint append];
    try (cbn [scan_digits]; change (is_digit _) with true; cbv iota;
         rewrite IHd; reflexivity).
  now apply scan_digits_stop.
Qed.

Lemma match_frac_stop rest : delimits rest = true -> match_frac rest = ("", rest).
Proof.
  destruct rest as [|c [|d r]]; try reflexivity. cbn [delimits match_frac].
  destruct (Ascii.eqb c "."); [|reflexivity].
  rewrite !orb_true_r, ?orb_true_l. discriminate.
Qed.

Lemma match_exp_stop rest : delimits rest = true -> match_exp rest = ("", rest).
Proof.
  destruct rest as [|c r]; [reflexivity|]. cbn [delimits match_exp].
  destruct (Ascii.eqb c "e"), (Ascii.eqb c "E"); cbn [orb];
    rewrite ?orb_true_r; try discriminate. reflexivity.
Qed.

Lemma unorm_head_zero d d' : unorm d = D0 d' -> d' = Nil.
Proof.
  induction d; cbn; try discriminate; try (intros [= <-]; reflexivity).
  - apply IHd.
Qed.

Lemma to_uint_unorm p : unorm (Pos.to_uint p) = Pos.to_uint p.
Proof.
  rewrite <- DecimalPos.Unsigned.to_of, DecimalPos.Unsigned.of_to. reflexivity.
Qed.

(** The decimal digits of a positive number start with a non-zero digit. *)
Lemma to_uint_head p :
  match Pos.to_uint p with Nil | D0 _ => False | _ => True end.
Proof.
  pose proof (to_uint_unorm p) as Hn.
  pose proof (DecimalPos.Unsigned.to_uint_nonzero p) as Hz.
  destruct (Pos.to_uint p) eqn:E; try exact I.
  - discriminate Hn.
  - apply unorm_head_zero in Hn. subst. now elim Hz.
Qed.

Lemma match_integer_uint d rest :
  match d with Nil | D0 _ => False | _ => True end ->
  delimits rest = true ->
  match_integer (NilEmpty.string_of_uint d +:+ rest)
  = Some (NilEmpty.string_of_uint d, rest).
Proof.
  intros Hd Hr.
  destruct d; try contradiction;
    cbn [NilEmpty.string_of_uint append]; unfold match_integer;
    change (Ascii.eqb _ "-") with false; cbv iota;
    change (Ascii.eqb _ "0") with false; cbv iota;
    change (is_digit _) with true; cbv iota;
    rewrite (scan_digits_uint _ _ Hr); reflexivity.
Qed.

Lemma int_of_literal_repr n : int_of_literal (int_repr n) = n.
Proof.
  unfold int_of_literal, int_repr.
  rewrite NilEmpty.isi. apply DecimalZ.of_to.
Qed.

Lemma match_integer_repr n rest :
  delimits rest = true ->
  match_integer (int_repr n +:+ rest) = Some (int_repr n, rest).
Proof.
  intros Hr. unfold int_repr. destruct n as [|p|p]; cbn [Z.to_int NilEmpty.string_of_int].
  - reflexivity.
  - apply match_integer_uint; [apply to_uint_head | exact Hr].
  - pose proof (to_uint_head p) as Hh.
    pose proof (match_integer_uint (Pos.to_uint p) rest Hh Hr) as Hm.
    cbn [append]. unfold match_integer in *.
    change (Ascii.eqb "-" "-") with true. cbv iota.
    destruct (Pos.to_uint p); try contradiction;
      cbn [NilEmpty.string_of_uint append] in *;
      revert Hm;
      change (Ascii.eqb _ "-") with false; cbv iota;
      change (Ascii.eqb _ "0") with false; cbv iota;
      change (is_digit _) with true; cbv iota;
      destruct (scan_digits _) as [ds r']; intros [= -> ->]; reflexivity.
Qed.

(** A printed integer is matched back as that integer. *)
Lemma match_number_repr n rest :
  delimits rest = true ->
  match_number (int_repr n +:+ rest) = Some (PInt n, rest).
Proof.
  intros Hr. unfold match_number.
  rewrite (match_integer_repr _ _ Hr), (match_frac_stop _ Hr), (match_exp_stop _ Hr).
  now rewrite int_of_literal_repr.
Qed.

Lemma int_repr_head n rest :
  exists c r, int_repr n +:+ rest = String c r /\
              (is_digit c = true \/ c = "-"%char).
Proof.
  unfold int_repr. destruct n as [|p|p]; cbn [Z.to_int NilEmpty.string_of_int].
  - exists "0"%char, rest. split; [reflexivity | now left].
  - pose proof (to_uint_head p) as Hh.
    destruct (Pos.to_uint p); try contradiction;
      cbn [NilEmpty.string_of_uint append]; eexists _, _;
      (split; [reflexivity | now left]).
  - cbn [append]. eexists _, _. split; [reflexivity | now right].
Qed.

Lemma number_head c :
  is_digit c = true \/ c = "-"%char ->
  Ascii.eqb c dquote = false /\ Ascii.eqb c "{" = false /\ Ascii.eqb c "[" = false /\
  Ascii.eqb "n" c = false /\ Ascii.eqb "t" c = false /\ Ascii.eqb "f" c = false /\
  is_ws c = false /\ Ascii.eqb c "]" = false /\ Ascii.eqb c "}" = false.
Proof.
  intros [H | ->]; [|repeat split; reflexivity].
  revert H. destruct c as [[] [] [] [] [] [] [] []]; cbv; intros H;
    try discriminate H; repeat split; reflexivity.
Qed.

Lemma scan_once_number f c r v rest :
  is_digit c = true \/ c = "-"%char ->
  match_number (String c r) = Some (v, rest) ->
  scan_once (S f) (String c r) = Parsed v rest.
Proof.
  intros Hc Hm. destruct (number_head c Hc) as (H1 & H2 & H3 & H4 & H5 & H6 & _).
  cbn [scan_once]. rewrite H1, H2, H3. unfold literal. cbn [strip_prefix].
  rewrite H4, H5, H6, Hm. reflexivity.
Qed.

Lemma scan_once_int f n rest :
  delimits rest = true ->
  scan_once (S f) (int_repr n +:+ rest) = Parsed (PInt n) rest.
Proof.
  intros Hr. pose proof (match_number_repr n rest Hr) as Hm.
  destruct (int_repr_head n rest) as (c & r & E & Hc). rewrite E in *.
  now apply scan_once_number.
Qed.

(** *** White space and the first character of an encoded value *)

Lemma skip_ws_spaces n s : skip_ws (spaces n +:+ s) = skip_ws s.
Proof. induction n as [|n IH]; [reflexivity | exact IH]. Qed.

Lemma skip_ws_newline_indent k s : skip_ws (newline_indent k +:+ s) = skip_ws s.
Proof. unfold newline_indent. cbn [append skip_ws]. apply skip_ws_spaces. Qed.

Lemma skip_ws_head c r : is_ws c = false -> skip_ws (String c r) = String c r.
Proof. intros H. cbn [skip_ws]. now rewrite H. Qed.

Lemma encode_head lvl v rest : plain v -> opens_value (encode lvl v +:+ rest).
Proof.
  intros Hp. unfold opens_value.
  destruct Hp as [|b|n|s|l _|d _ _].
  - eexists _, _. repeat split; reflexivity.
  - destruct b; eexists _, _; repeat split; reflexivity.
  - destruct (int_repr_head n rest) as (c & r & E & Hc).
    destruct (number_head c Hc) as (_ & _ & _ & _ & _ & _ & H7 & H8 & H9).
    cbn [encode]. rewrite E. now exists c, r.
  - eexists _, _. repeat split; reflexivity.
  - destruct l; eexists _, _; repeat split; reflexivity.
  - destruct d; eexists _, _; repeat split; reflexivity.
Qed.

Lemma skip_ws_opens s : opens_value s -> skip_ws s = s.
Proof. intros (c & r & -> & H & _). now apply skip_ws_head. Qed.

(** *** Arrays and objects *)

Section Containers.
Variable scn : string -> scan pyval.
Variable enc : pyval -> string.
Variable lvl : nat.

Abbreviation sep := (String "," (newline_indent (S lvl))).

Lemma array_items_encode xs : forall x n rest,
  (length xs < n)%nat ->
  (forall y t, In y (x :: xs) -> delimits t = true -> scn (enc y +:+ t) = Parsed y t) ->
  (forall y t, In y xs -> opens_value (enc y +:+ t)) ->
  array_items scn n
    (enc x +:+ encode_more enc sep xs +:+ newline_indent lvl +:+ String "]" rest)
  = Parsed (x :: xs) rest.
Proof.
  induction xs as [|y ys IH]; intros x n rest Hn Hscn Hopen;
    (destruct n as [|n]; [lia|]); cbn [array_items encode_more].
  - rewrite Hscn; [|now left|reflexivity].
    cbn [append]. rewrite skip_ws_newline_indent. reflexivity.
  - rewrite Hscn; [|now left|reflexivity].
    rewrite !append_assoc. cbn [append].
    rewrite (skip_ws_head ","%char) by reflexivity. cbv beta iota.
    change (Ascii.eqb "," "]") with false. change (Ascii.eqb "," ",") with true.
    cbv iota. rewrite skip_ws_newline_indent.
    rewrite skip_ws_opens by (apply Hopen; now left).
    rewrite IH; [reflexivity | cbn [length] in Hn; lia | |].
    + intros z t Hz. apply Hscn. now right.
    + intros z t Hz. apply Hopen. now right.
Qed.

Lemma object_items_encode kvs : forall k v n rest,
  (length kvs < n)%nat ->
  (forall kv t, In kv ((k, v) :: kvs) -> delimits t = true ->
                scn (enc (snd kv) +:+ t) = Parsed (snd kv) t) ->
  (forall kv t, In kv ((k, v) :: kvs) -> opens_value (enc (snd kv) +:+ t)) ->
  object_items scn n
    (escape k +:+ String dquote (String ":" (String " " (enc v
       +:+ encode_more_pairs enc sep kvs +:+ newline_indent lvl +:+ String "}" rest))))
  = Parsed ((k, v) :: kvs) rest.
Proof.
  induction kvs as [|[k' v'] kvs IH]; intros k v n rest Hn Hscn Hopen;
    (destruct n as [|n]; [lia|]); cbn [object_items encode_more_pairs];
    rewrite scanstring_escape;
    rewrite (skip_ws_head ":"%char) by reflexivity; cbv beta iota;
    change (Ascii.eqb ":" ":") with true; cbv iota;
    change (skip_ws (String " " ?x)) with (skip_ws x);
    rewrite (skip_ws_opens (enc v +:+ _)) by (apply (Hopen (k, v)); now left);
    (rewrite (Hscn (k, v)); [|now left|reflexivity]).
  - cbn [append]. rewrite skip_ws_newline_indent. reflexivity.
  - unfold encode_pair, encode_basestring. cbn [fst snd].
    rewrite !append_assoc. cbn [append].
    rewrite (skip_ws_head ","%char) by reflexivity. cbv beta iota.
    change (Ascii.eqb "," "}") with false. change (Ascii.eqb "," ",") with true.
    cbv iota. rewrite skip_ws_newline_indent.
    rewrite (skip_ws_head dquote) by reflexivity. cbv beta iota.
    change (Ascii.eqb dquote dquote) with true. cbv iota.
    rewrite !append_assoc. cbn [append].
    rewrite IH; [reflexivity | cbn [length] in Hn; lia | |].
    + intros z t Hz. apply Hscn. now right.
    + intros z t Hz. apply Hopen. now right.
Qed.

End Containers.

Lemma dict_set_fresh d k v :
  k ∉ map fst d -> dict_set d k v = d ++ [(k, v)].
Proof.
  induction d as [|[k' v'] d IH]; intros Hk; [reflexivity|].
  cbn [dict_set]. cbn [map fst] in Hk. apply not_elem_of_cons in Hk as [Hne Hk].
  destruct (String.eqb_spec k k') as [->|_]; [now elim Hne|].
  cbn [app]. now rewrite IH.
Qed.

Lemma dict_fold_fresh ps : forall acc,
  NoDup (map fst (acc ++ ps)) ->
  fold_left (fun d kv => dict_set d (fst kv) (snd kv)) ps acc = acc ++ ps.
Proof.
  induction ps as [|[k v] ps IH]; intros acc Hnd; cbn [fold_left].
  - now rewrite app_nil_r.
  - cbn [fst snd]. rewrite dict_set_fresh.
    + rewrite IH; rewrite <- app_assoc; [reflexivity | exact Hnd].
    + rewrite map_app in Hnd. apply NoDup_app in Hnd as (_ & Hd & _).
      intros H. apply (Hd k H). cbn [map fst]. apply list_elem_of_here.
Qed.

(** [dict(pairs)] keeps pairs whose keys are all different. *)
Lemma dict_of_pairs_nodup ps : NoDup (map fst ps) -> dict_of_pairs ps = ps.
Proof. intros H. unfold dict_of_pairs. now rewrite dict_fold_fresh. Qed.

(** *** Values *)

Lemma size_pos v : (1 <= size v)%nat.
Proof. destruct v; cbn [size]; lia. Qed.

Lemma size_elements l :
  (length l <= fold_right (fun x n => size x + n) O l)%nat /\
  forall x, In x l -> (size x <= fold_right (fun x n => size x + n) O l)%nat.
Proof.
  induction l as [|y l [IH1 IH2]]; cbn [fold_right length].
  - split; [lia | intros x []].
  - pose proof (size_pos y). split; [lia|].
    intros x [<-|Hx]; [lia|]. specialize (IH2 x Hx). lia.
Qed.

Lemma size_members (d : list (string * pyval)) :
  (length d <= fold_right (fun kv n => size (snd kv) + n) O d)%nat /\
  forall kv, In kv d ->
    (size (snd kv) <= fold_right (fun kv n => size (snd kv) + n) O d)%nat.
Proof.
  induction d as [|y d [IH1 IH2]]; cbn [fold_right length].
  - split; [lia | intros x []].
  - pose proof (size_pos (snd y)). split; [lia|].
    intros x [<-|Hx]; [lia|]. specialize (IH2 x Hx). lia.
Qed.

(** A value written at any nesting level is scanned back, whatever
    follows it, as soon as the fuel covers its size. *)
Lemma scan_once_encode fuel : forall v,
  (size v <= fuel)%nat -> plain v ->
  forall lvl rest, delimits rest = true ->
  scan_once fuel (encode lvl v +:+ rest) = Parsed v rest.
Proof.
  induction fuel as [|f IH]; intros v Hsz Hp lvl rest Hr.
  { pose proof (size_pos v). lia. }
  destruct Hp as [|b|n|s|l Hl|d Hnd Hd].
  - reflexivity.
  - destruct b; reflexivity.
  - now apply scan_once_int.
  - cbn [encode]. unfold encode_basestring. cbn [append scan_once].
    change (Ascii.eqb dquote dquote) with true. cbv iota.
    rewrite append_assoc. cbn [append]. now rewrite scanstring_escape.
  - destruct l as [|x xs]; [reflexivity|].
    cbn [size] in Hsz. destruct (size_elements (x :: xs)) as [Hlen Hel].
    rewrite Forall_forall in Hl.
    cbn [encode]. rewrite !append_assoc. cbn [append scan_once].
    change (Ascii.eqb "[" dquote) with false. change (Ascii.eqb "[" "{") with false.
    change (Ascii.eqb "[" "[") with true. cbv iota.
    unfold parse_array. rewrite skip_ws_newline_indent.
    assert (Hopen : forall y t, In y (x :: xs) -> opens_value (encode (S lvl) y +:+ t)).
    { intros y t Hy. apply encode_head, Hl, list_elem_of_In, Hy. }
    rewrite skip_ws_opens by (apply Hopen; now left).
    destruct (Hopen x (encode_more (encode (S lvl)) (String "," (newline_indent (S lvl))) xs
                       +:+ newline_indent lvl +:+ String "]" rest)) as (c & r & E & _ & Hc & _);
      [now left|].
    rewrite E, Hc, <- E.
    rewrite array_items_encode; [reflexivity | cbn [length] in Hlen; lia | |].
    + intros y t Hy Ht. apply IH; [|apply Hl, list_elem_of_In, Hy|exact Ht].
      specialize (Hel y Hy). lia.
    + intros y t Hy. apply Hopen. now right.
  - destruct d as [|[k v] kvs]; [reflexivity|].
    cbn [size] in Hsz. destruct (size_members ((k, v) :: kvs)) as [Hlen Hel].
    rewrite Forall_forall in Hd.
    cbn [encode]. unfold encode_pair at 1, encode_basestring. cbn [fst snd].
    rewrite !append_assoc. cbn [append scan_once].
    change (Ascii.eqb "{" dquote) with false. change (Ascii.eqb "{" "{") with true.
    cbv iota. unfold parse_object. rewrite skip_ws_newline_indent.
    rewrite (skip_ws_head dquote) by reflexivity. cbv beta iota.
    change (Ascii.eqb dquote "}") with false. change (Ascii.eqb dquote dquote) with true.
    cbv iota. rewrite !append_assoc. cbn [append].
    rewrite object_items_encode.
    + now rewrite dict_of_pairs_nodup.
    + cbn [length] in Hlen. lia.
    + intros kv t Hkv Ht. apply IH; [|apply Hd, list_elem_of_In, Hkv|exact Ht].
      specialize (Hel kv Hkv). lia.
    + intros kv t Hkv. apply encode_head, Hd, list_elem_of_In, Hkv.
Qed.

(** Induction on values, through the lists and the dicts *)
Lemma pyval_nested_ind (P : pyval -> Prop)
  (Hnone : P PNone) (Hbool : forall b, P (PBool b)) (Hint : forall n, P (PInt n))
  (Hfloat : forall lit, P (PFloat lit)) (Hstr : forall s, P (PStr s))
  (Hlist : forall l, Forall P l -> P (PList l))
  (Hdict : forall d, Forall (fun kv => P (snd kv)) d -> P (PDict d)) :
  forall v, P v.
Proof.
  fix IH 1. intros [ |b|n|lit|s|l|d].
  - exact Hnone.
  - apply Hbool.
  - apply Hint.
  - apply Hfloat.
  - apply Hstr.
  - apply Hlist. induction l as [|x l IHl]; constructor; [apply IH | exact IHl].
  - apply Hdict. induction d as [|[k x] d IHd]; constructor; [apply IH | exact IHd].
Qed.

Lemma length_encode_more enc sp l :
  Forall (fun x => size x <= String.length (enc x))%nat l ->
  (fold_right (fun x n => size x + n) O l <= String.length (encode_more enc sp l))%nat.
Proof.
  induction 1 as [|x l Hx _ IH]; cbn [fold_right encode_more]; [lia|].
  rewrite !length_append. lia.
Qed.

Lemma length_encode_more_pairs enc sp (d : list (string * pyval)) :
  Forall (fun kv => size (snd kv) <= String.length (enc (snd kv)))%nat d ->
  (fold_right (fun kv n => size (snd kv) + n) O d
   <= String.length (encode_more_pairs enc sp d))%nat.
Proof.
  induction 1 as [|x l Hx _ IH]; cbn [fold_right encode_more_pairs]; [lia|].
  unfold encode_pair. rewrite !length_append. lia.
Qed.

Lemma size_le_length v :
  plain v -> forall lvl, (size v <= String.length (encode lvl v))%nat.
Proof.
  induction v as [ |b|n|lit|s|l IH|d IH] using pyval_nested_ind; intros Hp lvl;
    cbn [size encode].
  - cbn. lia.
  - destruct b; cbn; lia.
  - destruct (int_repr_head n "") as (c & r & E & _).
    rewrite append_nil_r in E. rewrite E. cbn [String.length]. lia.
  - inversion Hp.
  - unfold encode_basestring. cbn [String.length]. lia.
  - inversion Hp as [ | | | |l' Hl| ]; subst.
    destruct l as [|x xs]; [cbn; lia|].
    apply Forall_cons in IH as [Hx Hxs]. apply Forall_cons in Hl as [Hpx Hpxs].
    rewrite !length_append. cbn [fold_right String.length].
    specialize (Hx Hpx (S lvl)).
    pose proof (length_encode_more (encode (S lvl))
                  ("," +:+ newline_indent (S lvl)) xs) as Hm.
    assert (Hxs' : Forall (fun x => size x <= String.length (encode (S lvl) x))%nat xs).
    { rewrite Forall_forall in *. intros y Hy. apply Hxs; [exact Hy | apply Hpxs, Hy]. }
    specialize (Hm Hxs'). lia.
  - inversion Hp as [ | | | | |d' _ Hd]; subst.
    destruct d as [|[k x] kvs]; [cbn; lia|].
    apply Forall_cons in IH as [Hx Hxs]. apply Forall_cons in Hd as [Hpx Hpxs].
    cbn [snd] in Hx, Hpx.
    rewrite !length_append. unfold encode_pair at 1. rewrite !length_append.
    cbn [fold_right String.length snd].
    specialize (Hx Hpx (S lvl)).
    pose proof (length_encode_more_pairs (encode (S lvl))
                  ("," +:+ newline_indent (S lvl)) kvs) as Hm.
    assert (Hxs' : Forall (fun kv => size (snd kv)
                            <= String.length (encode (S lvl) (snd kv)))%nat kvs).
    { rewrite Forall_forall in *. intros y Hy. apply Hxs; [exact Hy | apply Hpxs, Hy]. }
    specialize (Hm Hxs'). lia.
Qed.


(** *** The fuel of [loads] is never used up

    Every scanner consumes at least one character, so a text of length
    [n] cannot nest or enumerate more than [n] values: [None] from [loads]
    is always a malformed text. *)

Lemma skip_ws_length s : (String.length (skip_ws s) <= String.length s)%nat.
Proof.
  induction s as [|c s IH]; cbn [skip_ws String.length]; [lia|].
  destruct (is_ws c); cbn [String.length]; lia.
Qed.

Lemma prepend_some p x b r :
  prepend p x = Some (b, r) -> exists b', x = Some (b', r).
Proof. destruct x as [[b' r']|]; cbn; [intros [= _ ->]; eauto | discriminate]. Qed.

Lemma scanstring_length n : forall s b r,
  (String.length s <= n)%nat -> scanstring s = Some (b, r) ->
  (String.length r < String.length s)%nat.
Proof.
  induction n as [|n IH]; intros s b r Hn H;
    (destruct s as [|c s1]; [discriminate H|]); cbn [String.length] in *; [lia|].
  cbn [scanstring] in H.
  destruct (Ascii.eqb c dquote); [injection H as _ ->; lia|].
  destruct (Ascii.eqb c bslash).
  - destruct s1 as [|e r1]; [discriminate H|].
    destruct (Ascii.eqb e "u").
    + destruct r1 as [|h1 [|h2 [|h3 [|h4 r2]]]]; try discriminate H.
      destruct (hex4 h1 h2 h3 h4); [|discriminate H].
      cbn [String.length] in *.
      assert (Hplain : forall p, prepend p (scanstring r2) = Some (b, r) ->
                (String.length r < S (S (S (S (S (S (String.length r2)))))))%nat).
      { intros p Hp. apply prepend_some in Hp as [b' Hp].
        apply IH in Hp; lia. }
      destruct (is_high_surrogate n0); [|now apply Hplain in H].
      destruct r2 as [|x1 [|x2 [|k1 [|k2 [|k3 [|k4 r3]]]]]];
        try (now apply Hplain in H).
      destruct (Ascii.eqb x1 bslash && Ascii.eqb x2 "u"); [|now apply Hplain in H].
      destruct (hex4 k1 k2 k3 k4); [|discriminate H].
      destruct (is_low_surrogate n1); [|now apply Hplain in H].
      apply prepend_some in H as [b' H]. apply IH in H;
        cbn [String.length] in *; lia.
    + destruct (backslash_char e); [|discriminate H].
      apply prepend_some in H as [b' H]. apply IH in H;
        cbn [String.length] in *; lia.
  - destruct (code c <? 32)%N; [discriminate H|].
    apply prepend_some in H as [b' H]. apply IH in H; lia.
Qed.

Lemma scan_digits_length s : forall ds r,
  scan_digits s = (ds, r) -> (String.length r <= String.length s)%nat.
Proof.
  induction s as [|c s IH]; intros ds r H; cbn [scan_digits] in H.
  - injection H as _ <-. lia.
  - destruct (is_digit c).
    + destruct (scan_digits s) as [ds' r'] eqn:E. injection H as _ <-.
      specialize (IH _ _ eq_refl). cbn [String.length]. lia.
    + injection H as _ <-. lia.
Qed.

Lemma match_integer_length s i r :
  match_integer s = Some (i, r) -> (String.length r < String.length s)%nat.
Proof.
  unfold match_integer.
  assert (Hbody : forall sg s1,
    match s1 with
    | String c r0 =>
      if Ascii.eqb c "0" then Some (sg +:+ "0", r0)
      else if is_digit c then
        let '(ds, r') := scan_digits r0 in Some (sg +:+ String c ds, r')
      else None
    | EmptyString => None
    end = Some (i, r) -> (String.length r < String.length s1)%nat).
  { intros sg [|c r0] H; [discriminate H|]. cbn [String.length].
    destruct (Ascii.eqb c "0"); [injection H as _ <-; lia|].
    destruct (is_digit c); [|discriminate H].
    destruct (scan_digits r0) as [ds r'] eqn:E. injection H as _ <-.
    apply scan_digits_length in E. lia. }
  destruct s as [|c r0]; [discriminate|].
  destruct (Ascii.eqb c "-"); intros H.
  - apply (Hbody "-" r0) in H. cbn [String.length]. lia.
  - now apply (Hbody "" (String c r0)) in H.
Qed.

Lemma match_frac_length s f r :
  match_frac s = (f, r) -> (String.length r <= String.length s)%nat.
Proof.
  unfold match_frac. destruct s as [|c [|d r0]]; try (intros [= _ <-]; lia).
  destruct (Ascii.eqb c "." && is_digit d); [|intros [= _ <-]; lia].
  destruct (scan_digits r0) as [ds r'] eqn:E. intros [= _ <-].
  apply scan_digits_length in E. cbn [String.length]. lia.
Qed.

Lemma match_exp_length s e r :
  match_exp s = (e, r) -> (String.length r <= String.length s)%nat.
Proof.
  unfold match_exp. destruct s as [|c r0]; [intros [= _ <-]; lia|].
  destruct (Ascii.eqb c "e" || Ascii.eqb c "E"); [|intros [= _ <-]; lia].
  assert (Hbody : forall sg r1, (String.length r1 <= String.length r0)%nat ->
    match r1 with
    | String d r2 =>
      if is_digit d
      then let '(ds, r3) := scan_digits r2 in (String c (sg +:+ String d ds), r3)
      else ("", String c r0)
    | EmptyString => ("", String c r0)
    end = (e, r) -> (String.length r <= String.length (String c r0))%nat).
  { intros sg [|d r2] Hl H; [injection H as _ <-; lia|].
    destruct (is_digit d); [|injection H as _ <-; lia].
    destruct (scan_digits r2) as [ds r3] eqn:E. injection H as _ <-.
    apply scan_digits_length in E. cbn [String.length] in *. lia. }
  destruct r0 as [|x r']; [intros [= _ <-]; lia|].
  destruct (Ascii.eqb x "+" || Ascii.eqb x "-"); intros H.
  - apply (Hbody (String x "") r') in H; cbn [String.length] in *; lia.
  - apply (Hbody "" (String x r')) in H; cbn [String.length] in *; lia.
Qed.

Lemma match_number_length s v r :
  match_number s = Some (v, r) -> (String.length r < String.length s)%nat.
Proof.
  unfold match_number. destruct (match_integer s) as [[i r0]|] eqn:Ei; [|discriminate].
  destruct (match_frac r0) as [f r1] eqn:Ef.
  destruct (match_exp r1) as [e r2] eqn:Ee.
  apply match_integer_length in Ei. apply match_frac_length in Ef.
  apply match_exp_length in Ee.
  destruct f, e; intros [= _ <-]; lia.
Qed.

Lemma strip_prefix_length p : forall s r,
  strip_prefix p s = Some r ->
  String.length s = (String.length p + String.length r)%nat.
Proof.
  induction p as [|a p IH]; intros s r H; cbn [strip_prefix] in H.
  - now injection H as ->.
  - destruct s as [|b s']; [discriminate H|].
    destruct (Ascii.eqb a b); [|discriminate H].
    apply IH in H. cbn [String.length]. lia.
Qed.

Lemma literal_length p v s other v' r :
  (0 < String.length p)%nat ->
  literal p v s other = Parsed v' r ->
  (String.length r < String.length s)%nat \/ other = Parsed v' r.
Proof.
  intros Hp. unfold literal. destruct (strip_prefix p s) as [rest|] eqn:E.
  - intros [= _ <-]. apply strip_prefix_length in E. left. lia.
  - now right.
Qed.

Lemma literal_not_starved p v s other :
  other <> Starved -> literal p v s other <> Starved.
Proof. unfold literal. now destruct (strip_prefix p s). Qed.

Section Loops.
Variable scn : string -> scan pyval.
Hypothesis scn_consumes : forall s v r,
  scn s = Parsed v r -> (String.length r < String.length s)%nat.

Lemma array_items_length n : forall s vs r,
  array_items scn n s = Parsed vs r -> (String.length r < String.length s)%nat.
Proof.
  induction n as [|n IH]; intros s vs r H; [discriminate H|].
  cbn [array_items] in H.
  destruct (scn s) as [v r0| |] eqn:Ev; try discriminate H.
  apply scn_consumes in Ev. pose proof (skip_ws_length r0) as Hs.
  destruct (skip_ws r0) as [|c r2]; [discriminate H|]. cbn [String.length] in Hs.
  destruct (Ascii.eqb c "]"); [injection H as _ <-; lia|].
  destruct (Ascii.eqb c ","); [|discriminate H].
  destruct (array_items scn n (skip_ws r2)) as [vs' r3| |] eqn:Er; try discriminate H.
  injection H as _ <-. apply IH in Er. pose proof (skip_ws_length r2). lia.
Qed.

Lemma parse_array_length n s v r :
  parse_array scn n s = Parsed v r -> (String.length r <= String.length s)%nat.
Proof.
  unfold parse_array. pose proof (skip_ws_length s) as Hs.
  destruct (skip_ws s) as [|c r0]; [discriminate|]. cbn [String.length] in Hs.
  destruct (Ascii.eqb c "]"); [intros [= _ <-]; lia|].
  destruct (array_items scn n (String c r0)) as [vs r1| |] eqn:E; try discriminate.
  intros [= _ <-]. apply array_items_length in E. cbn [String.length] in E. lia.
Qed.

Lemma object_items_length n : forall s ps r,
  object_items scn n s = Parsed ps r -> (String.length r < String.length s)%nat.
Proof.
  induction n as [|n IH]; intros s ps r H; [discriminate H|].
  cbn [object_items] in H.
  destruct (scanstring s) as [[key r0]|] eqn:Ek; [|discriminate H].
  apply (scanstring_length _ _ _ _ (le_n _)) in Ek.
  pose proof (skip_ws_length r0) as Hs0.
  destruct (skip_ws r0) as [|c r2]; [discriminate H|]. cbn [String.length] in Hs0.
  destruct (Ascii.eqb c ":"); [|discriminate H].
  pose proof (skip_ws_length r2) as Hs2.
  destruct (scn (skip_ws r2)) as [v r3| |] eqn:Ev; try discriminate H.
  apply scn_consumes in Ev. pose proof (skip_ws_length r3) as Hs3.
  destruct (skip_ws r3) as [|d r5]; [discriminate H|]. cbn [String.length] in Hs3.
  destruct (Ascii.eqb d "}"); [injection H as _ <-; lia|].
  destruct (Ascii.eqb d ","); [|discriminate H].
  pose proof (skip_ws_length r5) as Hs5.
  destruct (skip_ws r5) as [|q r6]; [discriminate H|]. cbn [String.length] in Hs5.
  destruct (Ascii.eqb q dquote); [|discriminate H].
  destruct (object_items scn n r6) as [ps' r7| |] eqn:Er; try discriminate H.
  injection H as _ <-. apply IH in Er. lia.
Qed.

Lemma parse_object_length n s v r :
  parse_object scn n s = Parsed v r -> (String.length r <= String.length s)%nat.
Proof.
  unfold parse_object. pose proof (skip_ws_length s) as Hs.
  destruct (skip_ws s) as [|c r0]; [discriminate|]. cbn [String.length] in Hs.
  destruct (Ascii.eqb c "}"); [intros [= _ <-]; lia|].
  destruct (Ascii.eqb c dquote); [|discriminate].
  destruct (object_items scn n r0) as [ps r1| |] eqn:E; try discriminate.
  intros [= _ <-]. apply object_items_length in E. lia.
Qed.

Variable bound : nat.
Hypothesis scn_fed : forall s, (String.length s < bound)%nat -> scn s <> Starved.

Lemma array_items_fed n : forall s,
  (String.length s < n)%nat -> (String.length s < bound)%nat ->
  array_items scn n s <> Starved.
Proof.
  induction n as [|n IH]; intros s Hn Hb; [lia|].
  cbn [array_items].
  destruct (scn s) as [v r0| |] eqn:Ev; try discriminate.
  - apply scn_consumes in Ev. pose proof (skip_ws_length r0) as Hs.
    destruct (skip_ws r0) as [|c r2]; [discriminate|]. cbn [String.length] in Hs.
    destruct (Ascii.eqb c "]"); [discriminate|].
    destruct (Ascii.eqb c ","); [|discriminate].
    pose proof (skip_ws_length r2) as Hs2.
    specialize (IH (skip_ws r2)).
    destruct (array_items scn n (skip_ws r2)); try discriminate.
    exfalso. apply IH; [lia | lia | reflexivity].
  - now apply scn_fed in Ev.
Qed.

Lemma object_items_fed n : forall s,
  (String.length s < n)%nat -> (String.length s < bound)%nat ->
  object_items scn n s <> Starved.
Proof.
  induction n as [|n IH]; intros s Hn Hb; [lia|].
  cbn [object_items].
  destruct (scanstring s) as [[key r0]|] eqn:Ek; [|discriminate].
  apply (scanstring_length _ _ _ _ (le_n _)) in Ek.
  pose proof (skip_ws_length r0) as Hs0.
  destruct (skip_ws r0) as [|c r2]; [discriminate|]. cbn [String.length] in Hs0.
  destruct (Ascii.eqb c ":"); [|discriminate].
  pose proof (skip_ws_length r2) as Hs2.
  destruct (scn (skip_ws r2)) as [v r3| |] eqn:Ev; try discriminate.
  - apply scn_consumes in Ev. pose proof (skip_ws_length r3) as Hs3.
    destruct (skip_ws r3) as [|d r5]; [discriminate|]. cbn [String.length] in Hs3.
    destruct (Ascii.eqb d "}"); [discriminate|].
    destruct (Ascii.eqb d ","); [|discriminate].
    pose proof (skip_ws_length r5) as Hs5.
    destruct (skip_ws r5) as [|q r6]; [discriminate|]. cbn [String.length] in Hs5.
    destruct (Ascii.eqb q dquote); [|discriminate].
    specialize (IH r6).
    destruct (object_items scn n r6); try discriminate.
    exfalso. apply IH; [lia | lia | reflexivity].
  - apply scn_fed in Ev; [contradiction | lia].
Qed.

End Loops.

Lemma scan_once_length f : forall s v r,
  scan_once f s = Parsed v r -> (String.length r < String.length s)%nat.
Proof.
  induction f as [|f IH]; intros s v r H; [discriminate H|].
  destruct s as [|c r0]; [discriminate H|]. cbn [scan_once] in H.
  cbn [String.length].
  destruct (Ascii.eqb c dquote).
  { destruct (scanstring r0) as [[body rest]|] eqn:E; [|discriminate H].
    injection H as _ <-. apply (scanstring_length _ _ _ _ (le_n _)) in E. lia. }
  destruct (Ascii.eqb c "{").
  { apply (parse_object_length _ IH) in H. lia. }
  destruct (Ascii.eqb c "[").
  { apply (parse_array_length _ IH) in H. lia. }
  repeat (apply literal_length in H; [|cbn; lia];
          destruct H as [H|H]; [exact H|]).
  destruct (match_number (String c r0)) as [[v' rest]|] eqn:E.
  { injection H as _ <-. now apply match_number_length in E. }
  repeat (apply literal_length in H; [|cbn; lia];
          destruct H as [H|H]; [exact H|]).
  discriminate H.
Qed.

Lemma scan_once_fed f : forall s,
  (String.length s < f)%nat -> scan_once f s <> Starved.
Proof.
  induction f as [|f IH]; intros s Hf; [lia|].
  destruct s as [|c r0]; [discriminate|]. cbn [scan_once].
  cbn [String.length] in Hf.
  destruct (Ascii.eqb c dquote); [destruct (scanstring r0) as [[? ?]|]; discriminate|].
  destruct (Ascii.eqb c "{").
  { unfold parse_object. pose proof (skip_ws_length r0) as Hs.
    destruct (skip_ws r0) as [|c' r1]; [discriminate|]. cbn [String.length] in Hs.
    destruct (Ascii.eqb c' "}"); [discriminate|].
    destruct (Ascii.eqb c' dquote); [|discriminate].
    pose proof (object_items_fed _ (scan_once_length f) f IH f r1) as Ho.
    destruct (object_items (scan_once f) f r1); try discriminate.
    exfalso. apply Ho; [lia | lia | reflexivity]. }
  destruct (Ascii.eqb c "[").
  { unfold parse_array. pose proof (skip_ws_length r0) as Hs.
    destruct (skip_ws r0) as [|c' r1]; [discriminate|]. cbn [String.length] in Hs.
    destruct (Ascii.eqb c' "]"); [discriminate|].
    pose proof (array_items_fed _ (scan_once_length f) f IH f (String c' r1)) as Ho.
    destruct (array_items (scan_once f) f (String c' r1)); try discriminate.
    exfalso. apply Ho; [cbn [String.length]; lia | cbn [String.length]; lia | reflexivity]. }
  repeat apply literal_not_starved.
  destruct (match_number (String c r0)) as [[? ?]|]; [discriminate|].
  repeat apply literal_not_starved. discriminate.
Qed.

(** [loads] never runs out of fuel. *)
Lemma loads_fed s : scan_once (S (String.length s)) (skip_ws s) <> Starved.
Proof. apply scan_once_fed. pose proof (skip_ws_length s). lia. Qed.

End JsonFacts.

(** ** The store: [load_data] and [save_orders] *)

Section Store.

Lemma load_data_world filename w : snd (load_data filename w) = w.
Proof.
  unfold load_data. destruct (files w !! filename) as [text|]; [|reflexivity].
  now destruct (Json.loads text).
Qed.

Lemma load_data_files filename w1 w2 :
  files w1 = files w2 ->
  fst (load_data filename w1) = fst (load_data filename w2).
Proof.
  intros E. unfold load_data. rewrite E.
  destruct (files w2 !! filename) as [text|]; [|reflexivity].
  now destruct (Json.loads text).
Qed.

(** [load_data] always returns. *)
Lemma load_data_total filename w : exists v, load_data filename w = (Ret v, w).
Proof.
  unfold load_data. destruct (files w !! filename) as [text|]; [|eauto].
  destruct (Json.loads text); eauto.
Qed.


Lemma NoDup_three (a b c : string) :
  a <> b -> a <> c -> b <> c -> NoDup [a; b; c].
Proof.
  intros Hab Hac Hbc. repeat (apply NoDup_cons; split);
    rewrite ?elem_of_cons, ?elem_of_nil; try tauto. apply NoDup_nil_2.
Qed.

Lemma plain_item n p q : plain (make_item n p q).
Proof.
  constructor.
  - now apply NoDup_three.
  - repeat constructor.
Qed.

Lemma plain_order id c its : Forall plain its -> plain (make_order id c its).
Proof.
  intros H. constructor.
  - now apply NoDup_three.
  - repeat constructor. exact H.
Qed.

Lemma plain_order_to_py o : plain (order_to_py o).
Proof.
  apply plain_order. apply Forall_forall. intros x Hx.
  apply list_elem_of_In, in_map_iff in Hx as (it & <- & _). apply plain_item.
Qed.






End Store.

(** ** Fulfilling an order: [process_order] *)

Section Fulfil.
Context {B : Builtins}.

Lemma world_eta w : World (stdin w) (stdout w) (files w) = w.
Proof. now destruct w. Qed.

Lemma print_pending_ok orders :
  Forall listable orders ->
  forall i w, exists out,
    print_pending i orders w = (Ret tt, World (stdin w) (stdout w ++ out) (files w)).
Proof.
  induction 1 as [|o os [[id Hid] [c Hc]] _ IH]; intros i w.
  - exists []. rewrite app_nil_r, world_eta. reflexivity.
  - cbn [print_pending]. unfold bind, lift. rewrite Hid, Hc. unfold print at 1.
    match goal with |- context [print_pending ?j os ?w1] =>
      destruct (IH j w1) as [out E]; rewrite E end.
    cbn [stdin stdout files]. rewrite <- app_assoc. eauto.
Qed.

(** The listing and the prompt: with a line to read, [process_order] on a
    non-empty list reaches the choice with that line. *)
Lemma process_order_asks o os w line rest :
  Forall listable (o :: os) -> stdin w = line :: rest ->
  exists out,
    process_order (o :: os) w =
    (let choice := str_strip line in
     if String.eqb choice "" then ret (msg_cancelled, PNone, o :: os)
     else
       match int_of_str choice with
       | None => ret (msg_invalid_choice, PNone, o :: os)
       | Some n =>
         let index := n - 1 in
         if (0 <=? index) && (index <? Z.of_nat (length (o :: os))) then
           match (o :: os) !! Z.to_nat index with
           | None => ret (msg_invalid_choice, PNone, o :: os)
           | Some completed_order =>
             let orders' := delete (Z.to_nat index) (o :: os) in
             let* existing_output := load_data OUTPUT_FILE in
             match existing_output with
             | PList done =>
               let* _ := save_orders OUTPUT_FILE (PList (done ++ [completed_order])) in
               let* _ := save_orders INPUT_FILE (PList orders') in
               let* id := lift (getitem completed_order "order_id") in
               ret (msg_completed id, completed_order, orders')
             | _ => raise TypeError
             end
           end
         else ret (msg_invalid_choice, PNone, o :: os)
       end) (World rest (stdout w ++ out) (files w)).
Proof.
  intros Hl Hin. unfold process_order.
  unfold bind at 1. unfold print at 1. unfold bind at 1.
  match goal with |- context [print_pending 1 (o :: os) ?w1] =>
    destruct (print_pending_ok (o :: os) Hl 1 w1) as [out E]; rewrite E end.
  unfold bind at 1. unfold print at 1. unfold bind at 1. unfold input at 1.
  cbn [stdin stdout files]. rewrite Hin. rewrite <- !app_assoc.
  eexists. reflexivity.
Qed.

Lemma listable_lookup orders i o :
  Forall listable orders -> orders !! i = Some o -> listable o.
Proof. intros H Hi. exact (proj1 (Forall_lookup _ _) H i o Hi). Qed.


Lemma print_pending_frame orders : forall i w r w',
  print_pending i orders w = (r, w') -> stdin w' = stdin w /\ files w' = files w.
Proof.
  induction orders as [|o os IH]; intros i w r w'; cbn [print_pending].
  - now intros [= _ <-].
  - unfold bind, lift.
    destruct (getitem o "order_id"); [|now intros [= _ <-]].
    destruct (getitem o "customer"); [|now intros [= _ <-]].
    unfold print at 1. intros H. apply IH in H. exact H.
Qed.

(** Every way [process_order] can return: without an order, the list and
    the files as they were; or with the order at the selected position,
    on the path of [process_order_pop]. *)
Lemma process_order_cases orders w msg o orders' w' :
  process_order orders w = (Ret (msg, o, orders'), w') ->
  (o = PNone /\ orders' = orders /\ files w' = files w /\
   (msg = msg_no_pending \/ msg = msg_cancelled \/ msg = msg_invalid_choice))
  \/
  (exists line rest k done id,
     stdin w = line :: rest /\ str_strip line <> "" /\
     int_of_str (str_strip line) = Some k /\ 1 <= k <= Z.of_nat (length orders) /\
     fst (load_data OUTPUT_FILE w) = Ret (PList done) /\
     orders !! Z.to_nat (k - 1) = Some o /\ getitem o "order_id" = Ret id /\
     msg = msg_completed id /\ orders' = delete (Z.to_nat (k - 1)) orders /\
     files w' = <[INPUT_FILE := Json.dumps (PList orders')]>
                  (<[OUTPUT_FILE := Json.dumps (PList (done ++ [o]))]> (files w))).
Proof.
  unfold process_order. destruct orders as [|o0 os].
  { intros [= <- <- <- <-]. left. auto 8. }
  set (orders := o0 :: os).
  unfold bind at 1. unfold print at 1. unfold bind at 1.
  destruct (print_pending 1 orders _) as [[[]|e] w1] eqn:Ep; [|discriminate].
  apply print_pending_frame in Ep as [Hin1 Hf1]. cbn [stdin files] in Hin1, Hf1.
  unfold bind at 1. unfold print at 1. unfold bind at 1. unfold input at 1.
  cbn [stdin stdout files]. rewrite Hin1.
  destruct (stdin w) as [|line rest] eqn:Hin; [discriminate|].
  destruct (String.eqb (str_strip line) "") eqn:Ec.
  { intros [= <- <- <- <-]. left. cbn [files]. auto 8. }
  destruct (int_of_str (str_strip line)) as [k|] eqn:Ek;
    [|intros [= <- <- <- <-]; left; cbn [files]; auto 8].
  destruct ((0 <=? k - 1) && (k - 1 <? Z.of_nat (length orders))) eqn:Er;
    [|intros [= <- <- <- <-]; left; cbn [files]; auto 8].
  destruct (orders !! Z.to_nat (k - 1)) as [x|] eqn:Ex;
    [|intros [= <- <- <- <-]; left; cbn [files]; auto 8].
  unfold bind at 1.
  match goal with |- context [load_data OUTPUT_FILE ?w2] =>
    pose proof (load_data_world OUTPUT_FILE w2) as Hw;
    pose proof (load_data_files OUTPUT_FILE w2 w) as Hl;
    destruct (load_data OUTPUT_FILE w2) as [r w3] end.
  cbn [fst snd files] in Hw, Hl. specialize (Hl Hf1). subst w3.
  destruct r as [[ | | | | |done| ]|e]; try discriminate.
  unfold bind, save_orders, lift. cbn [stdin stdout files].
  destruct (getitem x "order_id") as [id|e] eqn:Eid; [|discriminate].
  intros [= <- <- <- <-]. right.
  apply andb_true_iff in Er as [Hlo Hhi].
  apply Z.leb_le in Hlo. apply Z.ltb_lt in Hhi. apply String.eqb_neq in Ec.
  exists line, rest, k, done, id. rewrite Hf1.
  repeat split; auto; lia.
Qed.



Lemma process_order_empty w :
  process_order [] w = (Ret (msg_no_pending, PNone, []), w).
Proof. reflexivity. Qed.

Lemma process_order_cancel orders w line rest :
  orders <> [] -> Forall listable orders -> stdin w = line :: rest ->
  str_strip line = "" -> refuses orders w msg_cancelled rest.
Proof.
  intros Hne Hl Hin Hs. destruct orders as [|o os]; [contradiction|].
  destruct (process_order_asks o os w line rest Hl Hin) as [out E].
  exists out. rewrite E. cbv zeta. rewrite Hs. reflexivity.
Qed.

Lemma process_order_not_a_number orders w line rest :
  orders <> [] -> Forall listable orders -> stdin w = line :: rest ->
  str_strip line <> "" -> int_of_str (str_strip line) = None ->
  refuses orders w msg_invalid_choice rest.
Proof.
  intros Hne Hl Hin Hs Hint. destruct orders as [|o os]; [contradiction|].
  destruct (process_order_asks o os w line rest Hl Hin) as [out E].
  exists out. rewrite E. cbv zeta. apply String.eqb_neq in Hs.
  rewrite Hs, Hint. reflexivity.
Qed.

Lemma process_order_out_of_range orders w line rest k :
  orders <> [] -> Forall listable orders -> stdin w = line :: rest ->
  str_strip line <> "" -> int_of_str (str_strip line) = Some k ->
  ~ (1 <= k <= Z.of_nat (length orders)) ->
  refuses orders w msg_invalid_choice rest.
Proof.
  intros Hne Hl Hin Hs Hint Hk. destruct orders as [|o os]; [contradiction|].
  destruct (process_order_asks o os w line rest Hl Hin) as [out E].
  exists out. rewrite E. cbv zeta. apply String.eqb_neq in Hs.
  rewrite Hs, Hint.
  replace ((0 <=? k - 1) && (k - 1 <? Z.of_nat (length (o :: os)))) with false;
    [reflexivity|].
  symmetry. apply andb_false_iff.
  destruct (Z.leb_spec 0 (k - 1)); [right; apply Z.ltb_ge; lia | now left].
Qed.

Lemma messages_differ :
  msg_no_pending <> msg_cancelled /\ msg_no_pending <> msg_invalid_choice /\
  msg_cancelled <> msg_invalid_choice.
Proof. repeat split; discriminate. Qed.

(** C3, as the code has it.  An empty pending list is refused with its
    own message before anything is printed or read; an empty selection is
    the cancel signal with its own message; a selection that is not an
    integer and a selection outside [1..len] are refused with one and the
    same message.  In all four cases no order is returned, the pending list
    is the one given and no file is written. *)
Theorem process_order_refusals (orders : list pyval) (w : world) :
  (orders = [] -> process_order orders w = (Ret (msg_no_pending, PNone, orders), w)) /\
  (forall line rest,
     orders <> [] -> Forall listable orders -> stdin w = line :: rest ->
     (str_strip line = "" -> refuses orders w msg_cancelled rest) /\
     (str_strip line <> "" -> int_of_str (str_strip line) = None ->
      refuses orders w msg_invalid_choice rest) /\
     (forall k, str_strip line <> "" -> int_of_str (str_strip line) = Some k ->
      ~ (1 <= k <= Z.of_nat (length orders)) ->
      refuses orders w msg_invalid_choice rest)) /\
  msg_no_pending <> msg_cancelled /\ msg_no_pending <> msg_invalid_choice /\
  msg_cancelled <> msg_invalid_choice.
Proof.
  split; [intros ->; apply process_order_empty|].
  split; [|apply messages_differ].
  intros line rest Hne Hl Hin. repeat split.
  - now apply process_order_cancel.
  - now apply process_order_not_a_number.
  - intros k. now apply process_order_out_of_range.
Qed.

End Fulfil.

(** ** Adding an order: [add_order] *)

Section Add.
Context {B : Builtins}.

Lemma eq_str_true v s : eq_str v s = true <-> v = PStr s.
Proof.
  destruct v; cbn; try (split; [discriminate | intros [=]]).
  rewrite String.eqb_eq. split; [now intros -> | now intros [= ->]].
Qed.

(** [any] finds a stored id equal to [order_id] when every order has an
    id and one of them is [order_id]. *)
Lemma any_order_id_found orders id :
  Forall has_order_id orders ->
  (exists o, In o orders /\ getitem o "order_id" = Ret (PStr id)) ->
  any_order_id orders id = Ret true.
Proof.
  induction 1 as [|o os [v Hv] _ IH]; intros (x & Hin & Hx); [destruct Hin|].
  cbn [any_order_id]. rewrite Hv.
  destruct (eq_str v id) eqn:E; [reflexivity|].
  destruct Hin as [<-|Hin].
  - rewrite Hx in Hv. injection Hv as <-. cbn in E. now rewrite String.eqb_refl in E.
  - apply IH. eauto.
Qed.

(** [any] answers false exactly when every order has an id and none of
    them is [order_id]. *)
Lemma any_order_id_fresh orders id :
  any_order_id orders id = Ret false <->
  Forall (fun o => has_order_id o /\ getitem o "order_id" <> Ret (PStr id)) orders.
Proof.
  induction orders as [|o os IH]; cbn [any_order_id].
  - split; [constructor | reflexivity].
  - destruct (getitem o "order_id") as [v|e] eqn:Hv.
    + destruct (eq_str v id) eqn:E.
      * split; [discriminate|]. intros H. apply Forall_cons in H as [[_ Hne] _].
        apply eq_str_true in E. subst v. now elim Hne.
      * rewrite IH. split.
        -- intros H. constructor; [|exact H]. split; [now exists v|].
           rewrite Hv. intros [= ->]. cbn in E. now rewrite String.eqb_refl in E.
        -- intros H. now apply Forall_cons in H as [_ H].
    + split; [discriminate|]. intros H. apply Forall_cons in H as [[[v Hv'] _] _].
      rewrite Hv' in Hv. discriminate.
Qed.

Lemma add_order_empty_id orders w l1 rest :
  stdin w = l1 :: rest -> str_upper (str_strip l1) = "" ->
  rejects orders w msg_empty_id rest [prompt_order_id].
Proof.
  intros Hin Hid. unfold rejects, add_order, bind, input. rewrite Hin, Hid. reflexivity.
Qed.

Lemma add_order_duplicate orders w l1 rest :
  stdin w = l1 :: rest -> str_upper (str_strip l1) <> "" ->
  any_order_id orders (str_upper (str_strip l1)) = Ret true ->
  rejects orders w (msg_duplicate (str_upper (str_strip l1))) rest [prompt_order_id].
Proof.
  intros Hin Hid Hany. unfold rejects, add_order, bind, input, lift.
  rewrite Hin. apply String.eqb_neq in Hid. rewrite Hid, Hany. reflexivity.
Qed.

Lemma add_order_empty_customer orders w l1 l2 rest :
  stdin w = l1 :: l2 :: rest -> str_upper (str_strip l1) <> "" ->
  any_order_id orders (str_upper (str_strip l1)) = Ret false ->
  str_strip l2 = "" ->
  rejects orders w msg_empty_customer rest [prompt_order_id; prompt_customer].
Proof.
  intros Hin Hid Hany Hc. unfold rejects, add_order, bind, input, lift.
  rewrite Hin. apply String.eqb_neq in Hid. rewrite Hid, Hany.
  cbn [stdin stdout files]. rewrite Hc, <- app_assoc. reflexivity.
Qed.


(** *** The item entry loop *)

Lemma stored_item_make l1 p q :
  String.eqb (str_strip l1) "" = false -> (p <? 0) = false -> (q <=? 0) = false ->
  stored_item (make_item (str_strip l1) p q).
Proof.
  intros Hn Hp Hq. exists (str_strip l1), p, q.
  apply String.eqb_neq in Hn. apply Z.ltb_ge in Hp. apply Z.leb_gt in Hq.
  repeat split; [exact Hn | exact Hp | lia].
Qed.

(** Whatever is typed, the loop only ever extends the list, and only with
    complete, valid items; it returns a non-empty list. *)
Lemma item_loop_invariant n : forall inp out its r inp' out',
  (length inp <= n)%nat ->
  Forall stored_item its ->
  item_loop inp out its = (Ret r, inp', out') ->
  Forall stored_item r /\ r <> [] /\ exists more, r = its ++ more.
Proof.
  induction n as [|n IH]; intros inp out its r inp' out' Hn Hits H;
    (destruct inp as [|l1 inp1]; [discriminate H|]); cbn [length] in Hn; [lia|].
  cbn [item_loop] in H.
  destruct (String.eqb (str_strip l1) "") eqn:En.
  { destruct its as [|i0 its0].
    - apply IH in H; [exact H | lia | exact Hits].
    - injection H as <- _ _. split; [exact Hits|]. split; [discriminate|].
      exists []. now rewrite app_nil_r. }
  destruct inp1 as [|l2 inp2]; [discriminate H|]. cbn [length] in Hn.
  destruct (int_of_str l2) as [p|]; [|apply IH in H; [exact H | lia | exact Hits]].
  destruct (p <? 0) eqn:Ep; [apply IH in H; [exact H | lia | exact Hits]|].
  destruct inp2 as [|l3 inp3]; [discriminate H|]. cbn [length] in Hn.
  destruct (int_of_str l3) as [q|]; [|apply IH in H; [exact H | lia | exact Hits]].
  destruct (q <=? 0) eqn:Eq; [apply IH in H; [exact H | lia | exact Hits]|].
  apply IH in H; [|lia|].
  - destruct H as (Hr & Hne & more & ->). split; [exact Hr|]. split; [exact Hne|].
    eexists. rewrite <- app_assoc. reflexivity.
  - apply Forall_app. split; [exact Hits|]. constructor; [|constructor].
    now apply stored_item_make.
Qed.

(** Every way [add_order] can return: one of the three error returns, or
    the path of [add_order_appends]. *)
Lemma add_order_cases orders w msg orders' w' :
  add_order orders w = (Ret (msg, orders'), w') ->
  (orders' = orders /\ files w' = files w /\
   (msg = msg_empty_id \/ (exists id, msg = msg_duplicate id) \/ msg = msg_empty_customer))
  \/
  (exists l1 l2 inp its,
     let id := str_upper (str_strip l1) in
     let c := str_strip l2 in
     stdin w = l1 :: l2 :: inp /\
     id <> "" /\ any_order_id orders id = Ret false /\ c <> "" /\
     item_loop inp (stdout w ++ [prompt_order_id; prompt_customer]) []
     = (Ret its, stdin w', stdout w') /\
     its <> [] /\ Forall stored_item its /\
     msg = msg_added id /\ orders' = orders ++ [make_order id c its] /\
     files w' = <[INPUT_FILE := Json.dumps (PList orders')]> (files w)).
Proof.
  unfold add_order, bind, input, lift.
  destruct (stdin w) as [|l1 inp]; [discriminate|].
  destruct (String.eqb (str_upper (str_strip l1)) "") eqn:Eid.
  { intros [= <- <- <-]. left. auto. }
  destruct (any_order_id orders (str_upper (str_strip l1))) as [[|]|e] eqn:Eany;
    [|cbn [stdin stdout files]|discriminate].
  { intros [= <- <- <-]. left. eauto 6. }
  destruct inp as [|l2 inp2]; [discriminate|].
  destruct (String.eqb (str_strip l2) "") eqn:Ec.
  { intros [= <- <- <-]. left. auto. }
  unfold enter_items. cbn [stdin stdout files]. rewrite <- app_assoc. cbn [app].
  destruct (item_loop inp2 _ []) as [[[its|e] inp'] out'] eqn:Eloop; [|discriminate].
  unfold save_orders. cbn [stdin stdout files]. intros [= <- <- <-]. right.
  pose proof (item_loop_invariant _ _ _ _ _ _ _ (le_n _) (Forall_nil_2 _) Eloop)
    as (Hits & Hne & _).
  apply String.eqb_neq in Eid, Ec.
  exists l1, l2, inp2, its. cbv zeta. cbn [stdin stdout files].
  repeat split; auto.
Qed.

(** C10, as the code has it.  In every order [add_order] appends, each
    item is a complete record with a non-empty name, a price of at least 0
    and a quantity of at least 1.  An empty name never creates an item: it
    ends the entry when there is an item already, and otherwise the error
    is printed and the name is asked again.  A price or a
    quantity that does not parse or is out of range sends the loop back to
    the name prompt with the item list as it was: the name, and the price
    when it was the quantity that failed, are dropped. *)
Theorem add_order_items_valid :
  (forall orders w msg orders' w',
     add_order orders w = (Ret (msg, orders'), w') ->
     orders' = orders \/
     exists id c its, orders' = orders ++ [make_order id c its] /\
                      its <> [] /\ Forall stored_item its) /\
  (forall l1 inp out its,
     str_strip l1 = "" ->
     item_loop (l1 :: inp) out its =
       match its with
       | [] => item_loop inp (out ++ [Prompted prompt_item_name; Printed msg_need_item]) []
       | _ :: _ => (Ret its, inp, out ++ [Prompted prompt_item_name])
       end) /\
  (forall l1 l2 inp out its,
     str_strip l1 <> "" ->
     int_of_str l2 = None \/ (exists p, int_of_str l2 = Some p /\ p < 0) ->
     exists said,
       item_loop (l1 :: l2 :: inp) out its = item_loop inp (out ++ said) its) /\
  (forall l1 l2 l3 p inp out its,
     str_strip l1 <> "" -> int_of_str l2 = Some p -> 0 <= p ->
     int_of_str l3 = None \/ (exists q, int_of_str l3 = Some q /\ q <= 0) ->
     exists said,
       item_loop (l1 :: l2 :: l3 :: inp) out its = item_loop inp (out ++ said) its).
Proof.
  split; [|split; [|split]].
  - intros orders w msg orders' w' H.
    apply add_order_cases in H
      as [(-> & _)|(l1 & l2 & inp & its & _ & _ & _ & _ & _ & Hne & Hits & _ & -> & _)].
    + now left.
    + right. exists (str_upper (str_strip l1)), (str_strip l2), its. auto.
  - intros l1 inp out its Hn. cbn [item_loop]. rewrite Hn. cbn [String.eqb].
    destruct its; [|reflexivity]. now rewrite <- app_assoc.
  - intros l1 l2 inp out its Hn Hbad. apply String.eqb_neq in Hn.
    cbn [item_loop]. rewrite Hn.
    destruct Hbad as [-> | (p & -> & Hp)].
    + eexists. rewrite <- !app_assoc. reflexivity.
    + apply Z.ltb_lt in Hp. rewrite Hp. eexists. rewrite <- !app_assoc. reflexivity.
  - intros l1 l2 l3 p inp out its Hn Hp Hp0 Hbad. apply String.eqb_neq in Hn.
    cbn [item_loop]. rewrite Hn, Hp. apply Z.ltb_ge in Hp0. rewrite Hp0.
    destruct Hbad as [-> | (q & -> & Hq)].
    + eexists. rewrite <- !app_assoc. reflexivity.
    + apply Z.leb_le in Hq. rewrite Hq. eexists. rewrite <- !app_assoc. reflexivity.
Qed.

(** Valid entries typed one after the other and closed by a blank line
    give exactly those items, in the order typed. *)
Lemma item_loop_entries es : forall its out stop rest,
  Forall entry_ok es -> str_strip stop = "" -> its ++ map entry_item es <> [] ->
  exists out',
    item_loop (flat_map entry_lines es ++ stop :: rest) out its
    = (Ret (its ++ map entry_item es), rest, out').
Proof.
  induction es as [|[[n p] q] es IH]; intros its out stop rest Hes Hstop Hne.
  - cbn [flat_map map app] in *. rewrite app_nil_r in *.
    cbn [item_loop]. rewrite Hstop. cbn [String.eqb].
    destruct its; [now elim Hne | eauto].
  - apply Forall_cons in Hes as [(Hn & (pv & Hp & Hp0) & (qv & Hq & Hq1)) Hes].
    cbn [flat_map entry_lines app map]. cbn [item_loop].
    apply String.eqb_neq in Hn. rewrite Hn, Hp, Hq.
    apply Z.ltb_ge in Hp0. rewrite Hp0.
    assert (Hq0 : (qv <=? 0) = false) by (apply Z.leb_gt; lia). rewrite Hq0.
    destruct (IH (its ++ [make_item (str_strip n) pv qv])
                 (((out ++ [Prompted prompt_item_name]) ++ [Prompted prompt_price])
                  ++ [Prompted prompt_quantity]) stop rest Hes Hstop) as [out' E].
    + rewrite <- app_assoc. destruct its; discriminate.
    + exists out'. rewrite E. unfold entry_item. rewrite Hp, Hq.
      now rewrite <- app_assoc.
Qed.


(** C2, as the code has it.  [add_order] fails, returning the error
    message with the pending list as it was and no file written, when the
    entered id is empty once trimmed and upper-cased, when a pending order
    has exactly that upper-cased id (every pending order having an id), or
    when the entered customer name is empty once trimmed.  An empty item
    name while no item has been entered is not a failure of the call: the
    error is printed and the name is asked again. *)
Theorem add_order_rejections (orders : list pyval) (w : world) :
  (forall l1 rest,
     stdin w = l1 :: rest -> str_upper (str_strip l1) = "" ->
     rejects orders w msg_empty_id rest [prompt_order_id]) /\
  (forall l1 rest,
     stdin w = l1 :: rest -> str_upper (str_strip l1) <> "" ->
     Forall has_order_id orders ->
     (exists o, In o orders /\
                getitem o "order_id" = Ret (PStr (str_upper (str_strip l1)))) ->
     rejects orders w (msg_duplicate (str_upper (str_strip l1))) rest [prompt_order_id]) /\
  (forall l1 l2 rest,
     stdin w = l1 :: l2 :: rest -> str_upper (str_strip l1) <> "" ->
     any_order_id orders (str_upper (str_strip l1)) = Ret false ->
     str_strip l2 = "" ->
     rejects orders w msg_empty_customer rest [prompt_order_id; prompt_customer]) /\
  (forall l inp out,
     str_strip l = "" ->
     item_loop (l :: inp) out []
     = item_loop inp (out ++ [Prompted prompt_item_name; Printed msg_need_item]) []).
Proof.
  repeat split.
  - intros l1 rest. apply add_order_empty_id.
  - intros l1 rest Hin Hid Hall Hex. apply add_order_duplicate; [exact Hin | exact Hid|].
    now apply any_order_id_found.
  - intros l1 l2 rest. apply add_order_empty_customer.
  - intros l inp out Hl. cbn [item_loop]. rewrite Hl. cbn [String.eqb].
    now rewrite <- app_assoc.
Qed.

End Add.

(** ** The total of an order: [calculate_order_total] *)

Section Total.
Context {B : Builtins}.

Lemma sum_subtotals_items its : forall acc,
  sum_subtotals acc (map item_to_py its) = Ret (acc + total_of its).
Proof.
  induction its as [|it its IH]; intros acc; cbn [map sum_subtotals total_of fold_right].
  - now rewrite Z.add_0_r.
  - cbn. rewrite IH. f_equal. fold (total_of its). lia.
Qed.

Lemma total_of_permutation its its' : Permutation its its' -> total_of its = total_of its'.
Proof.
  induction 1 as [|x l l' _ IH|x y l|l l' l'' _ IH1 _ IH2];
    unfold total_of in *; cbn [fold_right] in *; lia.
Qed.

Lemma calculate_order_total_items o :
  calculate_order_total (order_to_py o) = Ret (total_of (items o)).
Proof. unfold calculate_order_total. cbn. now rewrite sum_subtotals_items. Qed.

(** C7. The total of an order is the sum of price times quantity over its
    items; it is the same for any reordering of the items; and computing it
    changes neither the console nor the files. *)
Theorem calculate_order_total_sum (o : Order) :
  calculate_order_total (order_to_py o) = Ret (total_of (items o)) /\
  (forall o', Permutation (items o) (items o') ->
     calculate_order_total (order_to_py o') = calculate_order_total (order_to_py o)) /\
  (forall w, lift (calculate_order_total (order_to_py o)) w
             = (Ret (total_of (items o)), w)).
Proof.
  split; [apply calculate_order_total_items|]. split.
  - intros o' Hp. rewrite !calculate_order_total_items. f_equal. symmetry.
    now apply total_of_permutation.
  - intros w. unfold lift. now rewrite calculate_order_total_items.
Qed.

End Total.

(** C7 on an order of two items and on the same order with the items
    swapped *)
Lemma calculate_order_total_sum_witness :
  let o := mkOrder "A1" "Bob" [mkItem "Cola" 20 3; mkItem "Tea" 30 2] in
  let o' := mkOrder "A1" "Bob" [mkItem "Tea" 30 2; mkItem "Cola" 20 3] in
  calculate_order_total (order_to_py o) = Ret 120 /\
  calculate_order_total (order_to_py o') = calculate_order_total (order_to_py o).
Proof.
  intros o o'.
  destruct (calculate_order_total_sum o) as (Hsum & Hperm & _).
  split; [exact Hsum|]. apply Hperm. apply perm_swap.
Defined.

(** ** The menu: [main_menu] *)

Section Menu.
Context {B : Builtins}.

Lemma menu_step_asks orders w line rest :
  stdin w = line :: rest ->
  menu_step orders w
  = dispatch (str_strip line) orders (World rest (stdout w ++ menu_events) (files w)).
Proof.
  intros Hin. unfold menu_step, print_menu, bind, print, input.
  cbn [stdin stdout files]. rewrite Hin. rewrite <- !app_assoc. reflexivity.
Qed.

Lemma menu_step_eof orders w :
  stdin w = [] -> exists w', menu_step orders w = (Raise EOFError, w').
Proof.
  intros Hin. unfold menu_step, print_menu, bind, print, input.
  cbn [stdin stdout files]. rewrite Hin. eauto.
Qed.



(** Only the empty choice and ["4"] reach the [break]. *)
Lemma dispatch_running choice orders w st orders' w' :
  choice <> "" -> choice <> "4" ->
  dispatch choice orders w = (Ret (st, orders'), w') -> st = Running.
Proof.
  intros H0 H4. unfold dispatch. apply String.eqb_neq in H0, H4. rewrite H0, H4.
  cbn [orb]. unfold bind, print, ret.
  destruct (String.eqb choice "1").
  { destruct (add_order orders w) as [[[msg o']|e] w1]; [|discriminate].
    now intros [= <- _ _]. }
  destruct (String.eqb choice "2").
  { destruct (print_order_report orders _ w) as [[[]|e] w1]; [|discriminate].
    now intros [= <- _ _]. }
  destruct (String.eqb choice "3"); [|now intros [= <- _ _]].
  destruct (process_order orders w) as [[[[msg o] o']|e] w1]; [|discriminate].
  cbn [stdin stdout files].
  destruct (truthy o) as [[|]|]; [| |discriminate].
  - destruct (print_order_report [o] _ _) as [[[]|e] w2]; [|discriminate].
    now intros [= <- _ _].
  - now intros [= <- _ _].
Qed.


Lemma dispatch_report orders w w1 :
  print_order_report orders "訂單報表" w = (Ret tt, w1) ->
  dispatch "2" orders w = (Ret (Running, orders), w1).
Proof.
  intros H. unfold dispatch. cbn [String.eqb Ascii.eqb Bool.eqb orb andb].
  unfold bind, ret. now rewrite H.
Qed.



(** With orders of the stored shape the report is always printed. *)
Lemma report_items_ok its : report_formats -> forall w, exists out,
  report_items (map item_to_py its) w
  = (Ret tt, World (stdin w) (stdout w ++ out) (files w)).
Proof.
  intros [Hs Hi]. induction its as [|it its IH]; intros w.
  - exists []. now rewrite app_nil_r, world_eta.
  - cbn [map report_items]. unfold bind, lift, fmt. cbn [item_to_py make_item getitem
      dict_get String.eqb Ascii.eqb Bool.eqb py_mul as_int].
    destruct (Hs (name it) "<12") as [f1 ->]; [cbn; tauto|].
    destruct (Hi (price it) ">8,") as [f2 ->]; [cbn; tauto|].
    destruct (Hi (quantity it) ">10") as [f3 ->]; [cbn; tauto|].
    destruct (Hi (price it * quantity it) ">15,") as [f4 ->]; [cbn; tauto|].
    unfold lift, print. cbn [stdin stdout files].
    match goal with |- context [report_items _ ?w1] =>
      destruct (IH w1) as [out E]; rewrite E end.
    cbn [stdin stdout files]. rewrite <- app_assoc. eauto.
Qed.

Lemma report_order_ok o : report_formats -> forall w, exists out,
  report_order (order_to_py o) w
  = (Ret tt, World (stdin w) (stdout w ++ out) (files w)).
Proof.
  intros Hf w. pose proof Hf as [Hs Hi]. unfold report_order, bind, fmt, lift.
  rewrite calculate_order_total_items.
  cbn [order_to_py make_order getitem dict_get String.eqb Ascii.eqb Bool.eqb py_iter].
  destruct (Hs "品項名稱" "<10") as [h1 ->]; [cbn; tauto|].
  destruct (Hs "單價" ">8") as [h2 ->]; [cbn; tauto|].
  destruct (Hs "數量" ">10") as [h3 ->]; [cbn; tauto|].
  destruct (Hs "小計" ">15") as [h4 ->]; [cbn; tauto|].
  destruct (Hi (total_of (items o)) ",") as [ft ->]; [cbn; tauto|].
  unfold print. cbn [stdin stdout files].
  match goal with |- context [report_items _ ?w1] =>
    destruct (report_items_ok (items o) Hf w1) as [out E]; rewrite E end.
  cbn [stdin stdout files]. rewrite <- !app_assoc. eauto.
Qed.

Lemma report_orders_ok os : report_formats -> forall w, exists out,
  report_orders (map order_to_py os) w
  = (Ret tt, World (stdin w) (stdout w ++ out) (files w)).
Proof.
  intros Hf. induction os as [|o os IH]; intros w.
  - exists []. now rewrite app_nil_r, world_eta.
  - cbn [map report_orders]. unfold bind.
    destruct (report_order_ok o Hf w) as [out1 ->].
    destruct (IH (World (stdin w) (stdout w ++ out1) (files w))) as [out2 ->].
    cbn [stdin stdout files]. rewrite <- app_assoc. eauto.
Qed.

Lemma print_order_report_ok os title : report_formats -> forall w, exists out,
  print_order_report (map order_to_py os) title w
  = (Ret tt, World (stdin w) (stdout w ++ out) (files w)).
Proof.
  intros Hf w. unfold print_order_report, bind, print. cbn [stdin stdout files].
  match goal with |- context [report_orders _ ?w1] =>
    destruct (report_orders_ok os Hf w1) as [out ->] end.
  cbn [stdin stdout files]. rewrite <- app_assoc. eauto.
Qed.

(** Choice ["2"] on orders of the stored shape: the report is printed,
    nothing else changes, and the loop goes on. *)
Lemma menu_report_stays os w line rest :
  report_formats -> stdin w = line :: rest -> str_strip line = "2" ->
  exists out,
    menu_step (map order_to_py os) w
    = (Ret (Running, map order_to_py os), World rest (stdout w ++ out) (files w)).
Proof.
  intros Hf Hin Hc. rewrite (menu_step_asks _ _ _ _ Hin), Hc.
  destruct (print_order_report_ok os "訂單報表" Hf
              (World rest (stdout w ++ menu_events) (files w))) as [out E].
  rewrite (dispatch_report _ _ _ E). cbn [stdin stdout files].
  rewrite <- app_assoc. eauto.
Qed.

(** A run of the loop that ends normally ends on a choice that is empty
    or ["4"]. *)
Lemma menu_loop_break orders w r w' :
  menu_loop orders w r w' -> r = Ret tt ->
  exists orders0 w0 line rest orders1,
    stdin w0 = line :: rest /\
    (str_strip line = "" \/ str_strip line = "4") /\
    menu_step orders0 w0 = (Ret (Exited, orders1), w').
Proof.
  induction 1 as [orders w orders' w' Hs|orders w e w' Hs|orders w orders' w' r w'' Hs _ IH];
    intros Hr; [|discriminate Hr|now apply IH].
  destruct (stdin w) as [|line rest] eqn:Hin.
  { destruct (menu_step_eof orders w Hin) as [w1 E]. rewrite E in Hs. discriminate Hs. }
  exists orders, w, line, rest, orders'. split; [exact Hin|]. split; [|exact Hs].
  rewrite (menu_step_asks _ _ _ _ Hin) in Hs.
  destruct (String.eqb_spec (str_strip line) ""); [now left|].
  destruct (String.eqb_spec (str_strip line) "4"); [now right|].
  apply dispatch_running in Hs; [discriminate Hs | assumption | assumption].
Qed.

(** [main_menu] returns only after a choice that is empty or ["4"]. *)
Lemma main_menu_break w w' :
  main_menu w (Ret tt) w' ->
  exists orders0 w0 line rest orders1,
    stdin w0 = line :: rest /\
    (str_strip line = "" \/ str_strip line = "4") /\
    menu_step orders0 w0 = (Ret (Exited, orders1), w').
Proof.
  inversion 1 as [w1 orders w2 r w3 _ Hloop]; subst.
  now apply (menu_loop_break orders w2 (Ret tt) w').
Qed.


End Menu.

(** * Further properties of the program *)

(** ** What a call can change *)

Section Frames.
Context {B : Builtins}.
Variable R : world -> world -> Prop.
Hypothesis R_refl : forall w, R w w.
Hypothesis R_trans : forall w1 w2 w3, R w1 w2 -> R w2 w3 -> R w1 w3.

Lemma respects_ret {A} (a : A) : respects R (ret a).
Proof. intros w r w' [= _ <-]. apply R_refl. Qed.

Lemma respects_raise {A} e : respects R (raise (A := A) e).
Proof. intros w r w' [= _ <-]. apply R_refl. Qed.

Lemma respects_lift {A} (o : outcome A) : respects R (lift o).
Proof. intros w r w' [= _ <-]. apply R_refl. Qed.

Lemma respects_bind {A C} (m : M A) (k : A -> M C) :
  respects R m -> (forall a, respects R (k a)) -> respects R (bind m k).
Proof.
  intros Hm Hk w r w'. unfold bind.
  destruct (m w) as [[a|e] w1] eqn:E.
  - intros H. eapply R_trans; [eapply Hm, E | eapply Hk, H].
  - intros [= _ <-]. eapply Hm, E.
Qed.

Hypothesis R_print : forall s, respects R (print s).

(** One step through a sequence of binds, by the shape of the goal *)
Ltac frame_step :=
  lazymatch goal with
  | |- respects _ (bind _ _) => apply respects_bind; [|intros ?]
  | |- respects _ (ret _) => apply respects_ret
  | |- respects _ (raise _) => apply respects_raise
  | |- respects _ (lift _) => apply respects_lift
  | |- respects _ (fmt _ _) => apply respects_lift
  | |- respects _ (print _) => apply R_print
  | |- respects _ (let '(_, _) := ?x in _) => destruct x
  end.

Lemma respects_print_pending orders : forall i, respects R (print_pending i orders).
Proof.
  induction orders as [|o os IH]; intros i; cbn [print_pending];
    repeat frame_step. apply IH.
Qed.

Lemma respects_report_items its : respects R (report_items its).
Proof.
  induction its as [|it its IH]; cbn [report_items]; repeat frame_step. apply IH.
Qed.

Lemma respects_report_order o : respects R (report_order o).
Proof.
  unfold report_order; repeat frame_step. apply respects_report_items.
Qed.

Lemma respects_report_orders os : respects R (report_orders os).
Proof.
  induction os as [|o os IH]; cbn [report_orders]; repeat frame_step;
    [apply respects_report_order | apply IH].
Qed.

Lemma respects_print_order_report os title : respects R (print_order_report os title).
Proof.
  unfold print_order_report; repeat frame_step. apply respects_report_orders.
Qed.

Hypothesis R_input : forall s, respects R (input s).
Hypothesis R_load : forall f, respects R (load_data f).
Hypothesis R_save_pending : forall v, respects R (save_orders INPUT_FILE v).

Section Adding.
Hypothesis R_enter : respects R enter_items.

Lemma respects_add_order orders : respects R (add_order orders).
Proof.
  unfold add_order.
  frame_step; [apply R_input|]. destruct (String.eqb _ ""); [frame_step|].
  frame_step; [frame_step|]. destruct a0; [frame_step|].
  frame_step; [apply R_input|]. destruct (String.eqb _ ""); [frame_step|].
  frame_step; [apply R_enter|]. frame_step; [apply R_save_pending|]. frame_step.
Qed.

End Adding.

Section Fulfilling.
Hypothesis R_save_completed : forall v, respects R (save_orders OUTPUT_FILE v).

Lemma respects_process_order orders : respects R (process_order orders).
Proof.
  unfold process_order. destruct orders as [|o os]; [frame_step|].
  frame_step; [frame_step|]. frame_step; [apply respects_print_pending|].
  frame_step; [frame_step|]. frame_step; [apply R_input|].
  cbv zeta. destruct (String.eqb _ ""); [frame_step|].
  destruct (int_of_str _) as [n|]; [|frame_step].
  destruct (_ && _); [|frame_step].
  destruct (_ !! _) as [x|]; [|frame_step].
  frame_step; [apply R_load|].
  match goal with |- respects _ (match ?v with _ => _ end) => destruct v end;
    try apply respects_raise.
  frame_step; [apply R_save_completed|]. frame_step; [apply R_save_pending|].
  repeat frame_step.
Qed.

Hypothesis R_enter : respects R enter_items.

Lemma respects_dispatch choice orders : respects R (dispatch choice orders).
Proof.
  unfold dispatch.
  destruct (_ || _); [repeat frame_step|].
  destruct (String.eqb choice "1").
  { frame_step; [now apply respects_add_order|]. repeat frame_step. }
  destruct (String.eqb choice "2").
  { frame_step; [apply respects_print_order_report|]. frame_step. }
  destruct (String.eqb choice "3"); [|repeat frame_step].
  frame_step; [apply respects_process_order|].
  destruct a as [[msg o] o']. frame_step; [frame_step|]. frame_step; [frame_step|].
  frame_step; [|repeat frame_step].
  destruct (truthy o) as [[|]|];
    [apply respects_print_order_report | frame_step | frame_step].
Qed.


End Fulfilling.
End Frames.

(** ** What the program reads and writes *)

Section Footprint.
Context {B : Builtins}.

Lemma only_prints_refl w : only_prints w w.
Proof. repeat split. exists []. now rewrite app_nil_r. Qed.

Lemma only_prints_trans w1 w2 w3 :
  only_prints w1 w2 -> only_prints w2 w3 -> only_prints w1 w3.
Proof.
  intros (Hi1 & Hf1 & o1 & Ho1) (Hi2 & Hf2 & o2 & Ho2).
  split; [congruence|]. split; [congruence|].
  exists (o1 ++ o2). now rewrite Ho2, Ho1, app_assoc.
Qed.

Lemma only_prints_print s : respects only_prints (print s).
Proof. intros w r w' [= _ <-]. cbn. repeat split. eauto. Qed.

Lemma report_orders_only_prints orders : respects only_prints (report_orders orders).
Proof.
  apply respects_report_orders;
    [apply only_prints_refl | apply only_prints_trans | apply only_prints_print].
Qed.

Lemma print_order_report_run orders title w r w' :
  print_order_report orders title w = (r, w') ->
  stdin w' = stdin w /\ files w' = files w /\
  exists out,
    stdout w' = stdout w
      ++ Printed (String Json.ch_nl (rule "=" 24 +:+ " " +:+ title +:+ " " +:+ rule "=" 24))
      :: out.
Proof.
  unfold print_order_report, bind. unfold print at 1. intros H.
  apply report_orders_only_prints in H as (Hi & Hf & out & Ho).
  cbn [stdin stdout files] in *. split; [exact Hi|]. split; [exact Hf|].
  exists out. now rewrite Ho, <- app_assoc.
Qed.

(** X1. [print_order_report] only prints.  Whatever the orders are, and
    whether the call returns or raises on a malformed one, it reads no
    line, leaves every file as it was, and adds to the output, first of
    all the title line. *)
Theorem print_order_report_only_prints (orders : list pyval) (title : string)
    (w : world) :
  let w' := snd (print_order_report orders title w) in
  stdin w' = stdin w /\ files w' = files w /\
  exists out,
    stdout w' = stdout w
      ++ Printed (String Json.ch_nl (rule "=" 24 +:+ " " +:+ title +:+ " " +:+ rule "=" 24))
      :: out.
Proof.
  intros w'. subst w'.
  destruct (print_order_report orders title w) as [r w'] eqn:E.
  exact (print_order_report_run _ _ _ _ _ E).
Qed.

Lemma suffix_refl {A} (l : list A) : l `suffix_of` l.
Proof. reflexivity. Qed.

Lemma footprint_refl w : footprint w w.
Proof.
  split; [reflexivity|]. split; [|reflexivity]. exists []. now rewrite app_nil_r.
Qed.

Lemma footprint_trans w1 w2 w3 : footprint w1 w2 -> footprint w2 w3 -> footprint w1 w3.
Proof.
  intros (Hi1 & (o1 & Ho1) & Hf1) (Hi2 & (o2 & Ho2) & Hf2).
  split; [now transitivity (stdin w2)|]. split.
  - exists (o1 ++ o2). now rewrite Ho2, Ho1, app_assoc.
  - intros path Hp Hq. now rewrite Hf2, Hf1.
Qed.

Lemma footprint_print s : respects footprint (print s).
Proof.
  intros w r w' [= _ <-]. unfold footprint. cbn [stdin stdout files].
  split; [reflexivity|]. split; [eauto | reflexivity].
Qed.

Lemma footprint_input s : respects footprint (input s).
Proof.
  intros w r w'. unfold input. destruct (stdin w) as [|l rest] eqn:E;
    intros [= _ <-]; unfold footprint; cbn [stdin stdout files]; rewrite ?E;
    (split; [first [apply suffix_nil | apply suffix_cons_r, suffix_refl]|]);
    (split; [eauto | reflexivity]).
Qed.

Lemma footprint_load f : respects footprint (load_data f).
Proof.
  intros w r w' H. pose proof (load_data_world f w) as E. rewrite H in E.
  cbn in E. subst w'. apply footprint_refl.
Qed.

Lemma footprint_save_pending v : respects footprint (save_orders INPUT_FILE v).
Proof.
  intros w r w' [= _ <-]. unfold footprint. cbn [stdin stdout files].
  split; [reflexivity|]. split; [exists []; now rewrite app_nil_r|].
  intros path Hp _. now rewrite lookup_insert_ne.
Qed.

Lemma footprint_save_completed v : respects footprint (save_orders OUTPUT_FILE v).
Proof.
  intros w r w' [= _ <-]. unfold footprint. cbn [stdin stdout files].
  split; [reflexivity|]. split; [exists []; now rewrite app_nil_r|].
  intros path _ Hp. now rewrite lookup_insert_ne.
Qed.

(** The entry loop only consumes lines and only adds to the output. *)
Lemma item_loop_frame n : forall inp out its r inp' out',
  (length inp <= n)%nat ->
  item_loop inp out its = (r, inp', out') ->
  inp' `suffix_of` inp /\ exists said, out' = out ++ said.
Proof.
  assert (Hret : forall (r r' : outcome (list pyval)) (i i0 i' : list string)
              (o said o' : list event),
            (r', i0, o ++ said) = (r, i', o') -> i0 `suffix_of` i ->
            i' `suffix_of` i /\ exists said', o' = o ++ said').
  { intros r r' i i0 i' o said o' [= _ <- <-] Hs. eauto. }
  induction n as [|n IH]; intros inp out its r inp' out' Hn H;
    (destruct inp as [|l1 inp1];
     [cbn [item_loop] in H; eapply Hret; [exact H | apply suffix_nil]|]);
    cbn [length] in Hn; [lia|].
  assert (Hrec : forall i o said its',
            (length i <= n)%nat -> i `suffix_of` l1 :: inp1 ->
            item_loop i (o ++ said) its' = (r, inp', out') ->
            (exists o1, o = out ++ o1) ->
            inp' `suffix_of` l1 :: inp1 /\ exists said', out' = out ++ said').
  { intros i o said its' Hi Hs E [o1 ->]. apply IH in E as [Hs' [s' ->]]; [|exact Hi].
    split; [now transitivity i|]. eexists. rewrite <- !app_assoc. reflexivity. }
  cbn [item_loop] in H.
  destruct (String.eqb (str_strip l1) "").
  { destruct its as [|i0 its0].
    - eapply Hrec; [| |exact H|]; [lia | apply suffix_cons_r, suffix_refl | eauto].
    - eapply Hret; [exact H | apply suffix_cons_r, suffix_refl]. }
  destruct inp1 as [|l2 inp2];
    [rewrite <- app_assoc in H; eapply Hret; [exact H | apply suffix_nil]|].
  cbn [length] in Hn.
  assert (S2 : inp2 `suffix_of` l1 :: l2 :: inp2)
    by (do 2 apply suffix_cons_r; apply suffix_refl).
  destruct (int_of_str l2) as [p|];
    [|eapply Hrec; [| |exact H|]; [lia | exact S2 | rewrite <- app_assoc; eauto]].
  destruct (p <? 0);
    [eapply Hrec; [| |exact H|]; [lia | exact S2 | rewrite <- app_assoc; eauto]|].
  destruct inp2 as [|l3 inp3];
    [rewrite <- !app_assoc in H; eapply Hret; [exact H | apply suffix_nil]|].
  cbn [length] in Hn.
  assert (S3 : inp3 `suffix_of` l1 :: l2 :: l3 :: inp3)
    by (do 3 apply suffix_cons_r; apply suffix_refl).
  destruct (int_of_str l3) as [q|];
    [|eapply Hrec; [| |exact H|]; [lia | exact S3 | rewrite <- !app_assoc; eauto]].
  destruct (q <=? 0);
    [eapply Hrec; [| |exact H|]; [lia | exact S3 | rewrite <- !app_assoc; eauto]|].
  rewrite <- (app_nil_r (_ ++ [Prompted prompt_quantity])) in H.
  eapply Hrec; [| |exact H|]; [lia | exact S3 | rewrite <- !app_assoc; eauto].
Qed.

Lemma footprint_enter : respects footprint enter_items.
Proof.
  intros w r w'. unfold enter_items.
  destruct (item_loop (stdin w) (stdout w) []) as [[r0 inp] out] eqn:E.
  intros [= _ <-]. apply (item_loop_frame _ _ _ _ _ _ _ (le_n _)) in E as [Hs Ho].
  unfold footprint. cbn [stdin stdout files].
  split; [exact Hs|]. split; [exact Ho | reflexivity].
Qed.

Lemma footprint_dispatch choice orders : respects footprint (dispatch choice orders).
Proof.
  apply respects_dispatch;
    first [exact footprint_refl | exact footprint_trans | exact footprint_print
          | exact footprint_input | exact footprint_load | exact footprint_save_pending
          | exact footprint_save_completed | exact footprint_enter].
Qed.




(** Every iteration that stays in the loop has read at least one line. *)
Lemma menu_step_consumes orders w orders' w' :
  menu_step orders w = (Ret (Running, orders'), w') ->
  (length (stdin w') < length (stdin w))%nat.
Proof.
  destruct (stdin w) as [|line rest] eqn:Hin.
  { destruct (menu_step_eof orders w Hin) as [w1 E]. rewrite E. discriminate. }
  rewrite (menu_step_asks _ _ _ _ Hin). intros H.
  apply footprint_dispatch in H as [Hs _]. apply suffix_length in Hs.
  cbn [stdin length] in *. lia.
Qed.

Lemma menu_loop_total n : forall orders w,
  (length (stdin w) <= n)%nat -> exists r w', menu_loop orders w r w'.
Proof.
  induction n as [|n IH]; intros orders w Hn.
  - destruct (stdin w) eqn:Hin; [|cbn in Hn; lia].
    destruct (menu_step_eof orders w Hin) as [w1 E].
    exists (Raise EOFError), w1. now apply loop_raise.
  - destruct (menu_step orders w) as [[[[|] orders']|e] w1] eqn:E.
    + pose proof (menu_step_consumes _ _ _ _ E) as Hlt.
      destruct (IH orders' w1) as (r & w2 & Hloop); [lia|].
      exists r, w2. eapply loop_again; eassumption.
    + exists (Ret tt), w1. eapply loop_break; eassumption.
    + exists (Raise e), w1. now apply loop_raise.
Qed.

Lemma menu_loop_functional orders w r1 w1 :
  menu_loop orders w r1 w1 -> forall r2 w2, menu_loop orders w r2 w2 -> r2 = r1 /\ w2 = w1.
Proof.
  induction 1 as [orders w orders' w' Hs|orders w e w' Hs|orders w orders' w' r w'' Hs _ IH];
    intros r2 w2 H2; inversion H2 as [? ? ? ? Hs2|? ? ? ? Hs2|? ? ? ? ? ? Hs2 Hl2]; subst;
    rewrite Hs in Hs2; try discriminate Hs2.
  - now injection Hs2 as _ <-.
  - now injection Hs2 as <- <-.
  - injection Hs2 as <- <-. now apply IH.
Qed.

(** X3. The menu loop always ends.  On any pending list and any (finite)
    input the [while True] loop of [main_menu] has exactly one outcome: it
    leaves by [break] or an exception ends it, at the latest the [EOFError]
    of a prompt that finds no line. *)
Theorem menu_loop_terminates (orders : list pyval) (w : world) :
  exists r w',
    menu_loop orders w r w' /\
    forall r2 w2, menu_loop orders w r2 w2 -> r2 = r /\ w2 = w'.
Proof.
  destruct (menu_loop_total _ orders w (le_n _)) as (r & w' & H).
  exists r, w'. split; [exact H | now apply menu_loop_functional].
Qed.

End Footprint.

(** ** When a call fails *)

Section Failures.
Context {B : Builtins}.

Lemma getitem_raises v k e : getitem v k = Raise e -> e = KeyError \/ e = TypeError.
Proof.
  destruct v; cbn; try (intros [= <-]; now right).
  destruct (dict_get d k); [discriminate | intros [= <-]; now left].
Qed.

(** The listing returns exactly on listable orders; it reads nothing and
    touches no file. *)
Lemma print_pending_listable orders : forall i w r w',
  print_pending i orders w = (r, w') ->
  match r with
  | Ret _ => Forall listable orders
  | Raise e => ~ Forall listable orders /\ (e = KeyError \/ e = TypeError)
  end.
Proof.
  induction orders as [|o os IH]; intros i w r w'; cbn [print_pending].
  - intros [= <- _]. constructor.
  - unfold bind, lift.
    destruct (getitem o "order_id") as [id|e] eqn:Hid.
    2:{ intros [= <- _]. split; [|now apply getitem_raises in Hid].
        intros H. apply Forall_cons in H as [[[x Hx] _] _]. congruence. }
    destruct (getitem o "customer") as [c|e] eqn:Hc.
    2:{ intros [= <- _]. split; [|now apply getitem_raises in Hc].
        intros H. apply Forall_cons in H as [[_ [x Hx]] _]. congruence. }
    unfold print at 1. intros H. apply IH in H. destruct r as [[]|e].
    + constructor; [split; eauto | exact H].
    + destruct H as [Hn He]. split; [|exact He].
      intros H. apply Forall_cons in H as [_ H]. now apply Hn.
Qed.

(** When [process_order] raises, every file is as it was, and the
    exception is one of three. *)
Lemma process_order_raise_cases (orders : list pyval) (w : world)
    (e : exn) (w' : world) :
  process_order orders w = (Raise e, w') ->
  files w' = files w /\
  ((~ Forall listable orders /\ (e = KeyError \/ e = TypeError) /\ stdin w' = stdin w) \/
   (Forall listable orders /\ e = EOFError /\ stdin w = []) \/
   (Forall listable orders /\ e = TypeError /\
    exists line k v,
      stdin w = line :: stdin w' /\ int_of_str (str_strip line) = Some k /\
      1 <= k <= Z.of_nat (length orders) /\
      fst (load_data OUTPUT_FILE w) = Ret v /\ forall done, v <> PList done)).
Proof.
  unfold process_order. destruct orders as [|o0 os]; [discriminate|].
  set (orders := o0 :: os).
  unfold bind at 1. unfold print at 1. unfold bind at 1.
  destruct (print_pending 1 orders _) as [[[]|e1] w1] eqn:Ep.
  2:{ intros [= <- <-]. pose proof Ep as Hl. apply print_pending_listable in Hl as [Hn He].
      apply print_pending_frame in Ep as [Hin1 Hf1]. cbn [stdin files] in Hin1, Hf1.
      split; [exact Hf1|]. left. auto. }
  pose proof Ep as Hl. apply print_pending_listable in Hl.
  apply print_pending_frame in Ep as [Hin1 Hf1]. cbn [stdin files] in Hin1, Hf1.
  unfold bind at 1. unfold print at 1. unfold bind at 1. unfold input at 1.
  cbn [stdin stdout files]. rewrite Hin1.
  destruct (stdin w) as [|line rest] eqn:Hin.
  { intros [= <- <-]. cbn [files]. split; [exact Hf1|]. right. left. auto. }
  destruct (String.eqb (str_strip line) ""); [discriminate|].
  destruct (int_of_str (str_strip line)) as [k|] eqn:Ek; [|discriminate].
  destruct ((0 <=? k - 1) && (k - 1 <? Z.of_nat (length orders))) eqn:Er; [|discriminate].
  destruct (orders !! Z.to_nat (k - 1)) as [x|] eqn:Ex; [|discriminate].
  unfold bind at 1.
  match goal with |- context [load_data OUTPUT_FILE ?w2] =>
    pose proof (load_data_world OUTPUT_FILE w2) as Hw;
    pose proof (load_data_files OUTPUT_FILE w2 w) as Hload;
    destruct (load_data OUTPUT_FILE w2) as [r w3] end.
  cbn [fst snd files] in Hw, Hload. specialize (Hload Hf1). subst w3.
  apply andb_true_iff in Er as [Hlo Hhi].
  apply Z.leb_le in Hlo. apply Z.ltb_lt in Hhi.
  destruct r as [v|e1]; [|pose proof (load_data_total OUTPUT_FILE w) as [v Hv];
                           rewrite Hv in Hload; discriminate].
  symmetry in Hload.
  destruct v as [ | | | | |done| ];
    try (unfold raise; intros [= <- <-]; cbn [stdin files]; split; [exact Hf1|];
         right; right; split; [exact Hl|]; split; [reflexivity|];
         eexists line, k, _; repeat split; [exact Ek | lia | lia | exact Hload|];
         discriminate).
  unfold bind, save_orders, lift. cbn [stdin stdout files].
  destruct (listable_lookup _ _ _ Hl Ex) as [[id Hid] _]. rewrite Hid. discriminate.
Qed.


(** X5. One malformed pending order blocks every fulfilment.  When some
    pending order has no [order_id] or no [customer], [process_order]
    raises [KeyError] or [TypeError] while it lists the orders: no
    selection is asked for, no line is read and no file is touched. *)
Theorem process_order_unlistable (orders : list pyval) (w : world) :
  ~ Forall listable orders ->
  exists e out,
    process_order orders w = (Raise e, World (stdin w) (stdout w ++ out) (files w)) /\
    (e = KeyError \/ e = TypeError).
Proof.
  intros Hn. unfold process_order. destruct orders as [|o0 os]; [elim Hn; constructor|].
  set (orders := o0 :: os) in *.
  unfold bind at 1. unfold print at 1. unfold bind at 1.
  destruct (print_pending 1 orders _) as [[[]|e1] w1] eqn:Ep.
  { apply print_pending_listable in Ep. contradiction. }
  pose proof Ep as Hl. apply print_pending_listable in Hl as [_ He].
  pose proof Ep as Hf. apply print_pending_frame in Hf as [Hin1 Hf1].
  cbn [stdin files] in Hin1, Hf1.
  apply (respects_print_pending only_prints only_prints_refl only_prints_trans
           only_prints_print) in Ep as (_ & _ & out & Ho).
  cbn [stdout] in Ho. exists e1. eexists. split; [|exact He].
  f_equal. destruct w1 as [i1 o1 f1]. cbn [stdin stdout files] in *. subst.
  rewrite <- app_assoc. reflexivity.
Qed.


Lemma any_order_id_raises orders id e :
  any_order_id orders id = Raise e ->
  ~ Forall has_order_id orders /\ (e = KeyError \/ e = TypeError).
Proof.
  induction orders as [|o os IH]; cbn [any_order_id]; [discriminate|].
  destruct (getitem o "order_id") as [v|e1] eqn:Hv.
  - destruct (eq_str v id); [discriminate|]. intros H. apply IH in H as [Hn He].
    split; [|exact He]. intros Hall. apply Forall_cons in Hall as [_ Hall]. now apply Hn.
  - intros [= <-]. split; [|now apply getitem_raises in Hv].
    intros Hall. apply Forall_cons in Hall as [[x Hx] _]. congruence.
Qed.

Lemma item_loop_raises n : forall inp out its e inp' out',
  (length inp <= n)%nat ->
  item_loop inp out its = (Raise e, inp', out') -> e = EOFError /\ inp' = [].
Proof.
  induction n as [|n IH]; intros inp out its e inp' out' Hn H;
    (destruct inp as [|l1 inp1]; [now injection H as <- <- _|]);
    cbn [length] in Hn; [lia|].
  cbn [item_loop] in H.
  destruct (String.eqb (str_strip l1) "").
  { destruct its as [|i0 its0]; [|discriminate H]. apply IH in H; [exact H | lia]. }
  destruct inp1 as [|l2 inp2]; [now injection H as <- <- _|]. cbn [length] in Hn.
  destruct (int_of_str l2) as [p|]; [|apply IH in H; [exact H | lia]].
  destruct (p <? 0); [apply IH in H; [exact H | lia]|].
  destruct inp2 as [|l3 inp3]; [now injection H as <- <- _|]. cbn [length] in Hn.
  destruct (int_of_str l3) as [q|]; [|apply IH in H; [exact H | lia]].
  destruct (q <=? 0); apply IH in H; try exact H; lia.
Qed.

(** When [add_order] raises, every file is as it was. *)
Lemma add_order_raise_cases (orders : list pyval) (w : world)
    (e : exn) (w' : world) :
  add_order orders w = (Raise e, w') ->
  files w' = files w /\
  ((e = EOFError /\ stdin w' = []) \/
   (~ Forall has_order_id orders /\ (e = KeyError \/ e = TypeError))).
Proof.
  unfold add_order, bind, input, lift.
  destruct (stdin w) as [|l1 inp]; [intros [= <- <-]; cbn; auto|].
  destruct (String.eqb (str_upper (str_strip l1)) ""); [discriminate|].
  destruct (any_order_id orders (str_upper (str_strip l1))) as [[|]|e1] eqn:Eany;
    [discriminate|cbn [stdin stdout files]|].
  2:{ intros [= <- <-]. cbn [files]. split; [reflexivity|]. right.
      now apply any_order_id_raises in Eany. }
  destruct inp as [|l2 inp2]; [intros [= <- <-]; cbn; auto|].
  destruct (String.eqb (str_strip l2) ""); [discriminate|].
  unfold enter_items. cbn [stdin stdout files].
  destruct (item_loop inp2 _ []) as [[[its|e1] inp'] out'] eqn:Eloop; [discriminate|].
  intros [= <- <-]. cbn [stdin files]. split; [reflexivity|]. left.
  now apply (item_loop_raises _ _ _ _ _ _ _ (le_n _)) in Eloop.
Qed.


End Failures.

(** ** What an iteration does to the orders *)

Section Transitions.
Context {B : Builtins}.

Lemma transition_files orders w0 w orders1 w' :
  files w0 = files w -> transition orders w0 orders1 w' -> transition orders w orders1 w'.
Proof.
  intros Hf [w1 H|id c its w1 Hid Hc Hne Hits Hany H|i o done w1 Ho Hd H].
  - apply stays. congruence.
  - apply adds; auto. congruence.
  - apply fulfils with (o := o) (done := done); auto.
    + now rewrite <- (load_data_files OUTPUT_FILE w0 w Hf).
    + congruence.
Qed.

(** Every branch of the menu is one transition; when the branch raises,
    the files are those of the list given or of that list less one order
    (the detail report of a fulfilled order can raise after the files are
    written). *)
Lemma dispatch_transition choice orders w r w' :
  dispatch choice orders w = (r, w') ->
  exists orders1,
    transition orders w orders1 w' /\
    match r with
    | Ret (_, orders') => orders' = orders1
    | Raise _ => orders1 = orders \/ exists i, orders1 = delete i orders
    end.
Proof.
  unfold dispatch.
  destruct (_ || _).
  { unfold bind, print, ret. intros [= <- <-]. exists orders.
    split; [now apply stays | reflexivity]. }
  destruct (String.eqb choice "1").
  { unfold bind at 1. destruct (add_order orders w) as [[[msg o']|e] w1] eqn:E.
    - unfold bind, print, ret. intros [= <- <-]. cbn [files].
      apply add_order_cases in E
        as [(-> & Hf & _)|(l1 & l2 & inp & its & Hin & Hid & Hany & Hc & _ & Hne & Hits & _ & -> & Hf)].
      + exists orders. split; [now apply stays | reflexivity].
      + eexists. split; [|reflexivity]. now apply adds.
    - intros [= <- <-]. apply add_order_raise_cases in E as [Hf _].
      exists orders. split; [now apply stays | now left]. }
  destruct (String.eqb choice "2").
  { unfold bind at 1.
    destruct (print_order_report orders _ w) as [[[]|e] w1] eqn:E;
      apply print_order_report_run in E as (_ & Hf & _); unfold ret;
      intros [= <- <-]; exists orders; (split; [now apply stays|]);
      [reflexivity | now left]. }
  destruct (String.eqb choice "3").
  2:{ unfold bind, print, ret. intros [= <- <-]. exists orders.
      split; [now apply stays | reflexivity]. }
  unfold bind at 1. destruct (process_order orders w) as [[[[msg o] o']|e] w1] eqn:E.
  2:{ intros [= <- <-]. apply process_order_raise_cases in E as [Hf _].
      exists orders. split; [now apply stays | now left]. }
  apply process_order_cases in E
    as [(-> & -> & Hf & _)|(line & rest & k & done & id & _ & _ & _ & _ & Hd & Ho & Hid & -> & -> & Hf)].
  { unfold bind, print, ret. cbn [truthy]. intros [= <- <-]. exists orders.
    split; [now apply stays | reflexivity]. }
  assert (Ht : truthy o = Some true).
  { destruct o; try discriminate Hid. cbn in Hid |- *. now destruct d. }
  unfold bind at 1. unfold print at 1. unfold bind at 1. unfold print at 1.
  unfold bind at 1. rewrite Ht.
  destruct (print_order_report [o] _ _) as [[[]|e] w2] eqn:Er;
    apply print_order_report_run in Er as (_ & Hf2 & _); cbn [files] in Hf2;
    unfold bind, print, ret; intros [= <- <-]; cbn [files];
    exists (delete (Z.to_nat (k - 1)) orders);
    (split; [apply fulfils with (o := o) (done := done); auto; cbn [files]; congruence|]);
    [reflexivity | right; eauto].
Qed.

Lemma menu_step_transition orders w r w' :
  menu_step orders w = (r, w') ->
  exists orders1,
    transition orders w orders1 w' /\
    match r with
    | Ret (_, orders') => orders' = orders1
    | Raise _ => orders1 = orders \/ exists i, orders1 = delete i orders
    end.
Proof.
  destruct (stdin w) as [|line rest] eqn:Hin.
  - unfold menu_step, print_menu, bind, print, input. cbn [stdin stdout files].
    rewrite Hin. intros [= <- <-]. exists orders. split; [now apply stays | now left].
  - rewrite (menu_step_asks _ _ _ _ Hin). intros H.
    apply dispatch_transition in H as (orders1 & Ht & Hr). exists orders1.
    split; [|exact Hr]. eapply transition_files; [|exact Ht]. reflexivity.
Qed.









End Transitions.

(** ** Well-formed pending lists *)

Section WellFormed.
Context {B : Builtins}.



Lemma delete_map {A C} (f : A -> C) i : forall l, delete i (map f l) = map f (delete i l).
Proof.
  induction i as [|i IH]; intros [|x l]; cbn; try reflexivity. now rewrite <- IH.
Qed.

Lemma stored_items_records its :
  Forall stored_item its ->
  exists its', its = map item_to_py its' /\ Forall valid_item its'.
Proof.
  induction 1 as [|x l (n & p & q & -> & Hn & Hp & Hq) _ (its' & -> & Hv)].
  - exists []. split; [reflexivity | constructor].
  - exists (mkItem n p q :: its'). split; [reflexivity|].
    constructor; [repeat split; assumption | exact Hv].
Qed.

Lemma fresh_id os id :
  any_order_id (map order_to_py os) id = Ret false -> id ∉ map order_id os.
Proof.
  intros Hany Hin. apply any_order_id_fresh in Hany. rewrite Forall_forall in Hany.
  apply list_elem_of_In, in_map_iff in Hin as (o & <- & Ho).
  destruct (Hany (order_to_py o)) as [_ Hne].
  - apply list_elem_of_In, in_map. exact Ho.
  - now apply Hne.
Qed.

Lemma transition_well_formed orders w orders1 w' :
  well_formed orders -> transition orders w orders1 w' -> well_formed orders1.
Proof.
  intros (os & -> & Hv & Hn) [w1 H|id c its w1 Hid Hc Hne Hits Hany H|i o done w1 Ho Hd H].
  - exists os. auto.
  - apply stored_items_records in Hits as (its' & -> & Hits).
    exists (os ++ [mkOrder id c its']). split; [now rewrite map_app|]. split.
    + apply Forall_app. split; [exact Hv|]. constructor; [|constructor].
      repeat split; cbn; auto. now destruct its'.
    + rewrite map_app. apply NoDup_app. split; [exact Hn|]. split.
      * intros x Hx Hx'. apply list_elem_of_singleton in Hx'. subst x.
        now apply fresh_id in Hany.
      * apply NoDup_singleton.
  - exists (delete i os). split; [apply delete_map|]. split.
    + now apply Forall_delete.
    + rewrite <- delete_map. eapply sublist_NoDup; [exact Hn | apply sublist_delete].
Qed.

(** X10. The pending list stays well formed.  From a list of valid
    orders with no id twice (the empty list of a first run is one), every
    list the menu loop holds at the top of an iteration, whatever is typed,
    is again a list of orders with a non-empty id and customer and at
    least one item, every item with a non-empty name, a price of at least
    0 and a quantity of at least 1, and no id twice. *)
Theorem reaches_well_formed (orders : list pyval) (w : world)
    (orders' : list pyval) (w' : world) :
  well_formed orders -> reaches orders w orders' w' -> well_formed orders'.
Proof.
  intros Hw. induction 1 as [|orders1 w1 orders2 w2 _ IH Hs]; [exact Hw|].
  apply menu_step_transition in Hs as (o & Ht & ->).
  exact (transition_well_formed _ _ _ _ IH Ht).
Qed.





End WellFormed.

(** ** The text of the report *)

Section Report.
Context {B : Builtins}.









End Report.

(** ** When the total is a number *)

Section TotalReturns.
Context {B : Builtins}.

Lemma py_mul_int p q x n :
  py_mul p q = Ret x -> as_int x = Some n ->
  exists a b, as_int p = Some a /\ as_int q = Some b /\ n = a * b.
Proof.
  unfold py_mul.
  destruct (as_int p) as [a|] eqn:Ep; destruct (as_int q) as [b|] eqn:Eq.
  - intros [= <-] [= <-]. eauto.
  - destruct q; try discriminate; intros [= <-]; discriminate.
  - destruct p; try discriminate; intros [= <-]; discriminate.
  - destruct p; destruct q; discriminate.
Qed.

Lemma sum_subtotals_returns l : forall acc n,
  sum_subtotals acc l = Ret n <->
  exists pqs, Forall2 priced l pqs /\ n = acc + sum_products pqs.
Proof.
  induction l as [|it l IH]; intros acc n; cbn [sum_subtotals].
  - split.
    + intros [= <-]. exists []. split; [constructor | unfold sum_products; cbn; lia].
    + intros (pqs & H & ->). inversion H. unfold sum_products. cbn. f_equal. lia.
  - split.
    + destruct (getitem it "price") as [pv|] eqn:Hp; [|discriminate].
      destruct (getitem it "quantity") as [qv|] eqn:Hq; [|discriminate].
      destruct (py_mul pv qv) as [x|] eqn:Hm; [|discriminate].
      unfold sum_add. destruct (as_int x) as [m|] eqn:Hx; [|destruct x; discriminate].
      intros H. apply IH in H as (pqs & HF & ->).
      destruct (py_mul_int _ _ _ _ Hm Hx) as (a & b & Ha & Hb & ->).
      exists ((a, b) :: pqs). split; [|unfold sum_products; cbn; lia].
      constructor; [|exact HF]. exists pv, qv. auto.
    + intros (pqs & HF & ->).
      inversion HF as [|it0 pq l0 pqs' (pv & qv & Hp & Hq & Ha & Hb) HF']; subst.
      rewrite Hp, Hq. unfold py_mul. rewrite Ha, Hb. cbn [sum_add as_int].
      apply IH. exists pqs'. split; [exact HF' | unfold sum_products; cbn; lia].
Qed.

(** X13. When the total is a number.  [calculate_order_total] returns
    exactly when the order has an [items] entry that can be iterated and
    every item has a [price] and a [quantity] that are integers (or
    booleans), and it then returns the sum of the products.  In
    particular a price that is a string is never multiplied into the
    total: the call raises instead of returning. *)
Theorem calculate_order_total_returns (o : pyval) (n : Z) :
  calculate_order_total o = Ret n <->
  exists its l pqs,
    getitem o "items" = Ret its /\ py_iter its = Ret l /\
    Forall2 priced l pqs /\ n = sum_products pqs.
Proof.
  unfold calculate_order_total. split.
  - destruct (getitem o "items") as [its|] eqn:Hi; [|discriminate].
    destruct (py_iter its) as [l|] eqn:Hl; [|discriminate].
    intros H. apply sum_subtotals_returns in H as (pqs & HF & ->).
    exists its, l, pqs. auto.
  - intros (its & l & pqs & -> & -> & HF & ->).
    apply sum_subtotals_returns. eauto.
Qed.

End TotalReturns.

(** ** Entering a whole order *)

Section Scripts.
Context {B : Builtins}.






End Scripts.

(** ** What the completed file holds when an order is fulfilled *)

Section Completed.
Context {B : Builtins}.


Lemma skip_ws_white pre s : white pre -> Json.skip_ws (pre +:+ s) = Json.skip_ws s.
Proof.
  unfold white. induction pre as [|c pre IH]; cbn [append Json.skip_ws]; [reflexivity|].
  destruct (Json.is_ws c); [exact IH | discriminate].
Qed.

Lemma white_delimits s : white s -> delimits s = true.
Proof.
  unfold white, delimits. destruct s as [|c r]; [reflexivity|]. cbn [Json.skip_ws].
  destruct (Json.is_ws c) eqn:E; [|discriminate]. intros _.
  unfold Json.is_ws in E.
  repeat (apply orb_true_iff in E as [E|E]); apply Ascii.eqb_eq in E; subst c;
    reflexivity.
Qed.

(** X17. White space around the data does not matter.  A file that holds
    what [save_orders] writes, with any white space (blanks, tabs, line
    ends) before it and after it, such as the final line end an editor
    adds, is loaded as the value that was saved. *)
Theorem load_data_ignores_white (filename : string) (v : pyval) (pre post : string)
    (w : world) :
  plain v -> white pre -> white post ->
  files w !! filename = Some (pre +:+ Json.dumps v +:+ post) ->
  load_data filename w = (Ret v, w).
Proof.
  intros Hp Hpre Hpost Hf. unfold load_data. rewrite Hf.
  unfold Json.loads, Json.dumps. rewrite (skip_ws_white _ _ Hpre).
  pose proof (JsonFacts.encode_head 0 v post Hp) as Ho.
  rewrite (JsonFacts.skip_ws_opens _ Ho).
  rewrite JsonFacts.scan_once_encode;
    [now rewrite Hpost | | exact Hp | now apply white_delimits].
  pose proof (JsonFacts.size_le_length v Hp 0) as Hsz.
  rewrite !length_append. unfold Json.dumps in *. lia.
Qed.

End Completed.

(** ** The listing and the selection *)

Section Listing.
Context {B : Builtins}.





Lemma total_of_nonneg its : Forall valid_item its -> 0 <= total_of its.
Proof.
  induction 1 as [|it its (_ & Hp & Hq) _ IH]; unfold total_of in *;
    cbn [fold_right]; [lia|].
  assert (0 <= price it * quantity it) by (apply Z.mul_nonneg_nonneg; lia). lia.
Qed.

(** X20. An order that was added can be totalled.  For the order that
    [add_order] appends, [calculate_order_total] returns, and the total is
    not negative. *)
Theorem added_order_total (orders : list pyval) (w : world) (msg : string)
    (new : pyval) (w' : world) :
  add_order orders w = (Ret (msg, orders ++ [new]), w') ->
  exists n, calculate_order_total new = Ret n /\ 0 <= n.
Proof.
  intros H. apply add_order_cases in H
    as [(Heq & _)|(l1 & l2 & inp & its & _ & _ & _ & _ & _ & _ & Hits & _ & Heq & _)].
  - apply (f_equal length) in Heq. rewrite length_app in Heq. cbn [length] in Heq. lia.
  - apply app_inv_head in Heq. injection Heq as ->.
    apply stored_items_records in Hits as (its' & -> & Hv).
    exists (total_of its'). split; [|now apply total_of_nonneg].
    exact (calculate_order_total_items (mkOrder _ _ its')).
Qed.

End Listing.

(** ** The program on examples

    The ASCII runtime makes every hypothesis above a computation. *)

#[local] Existing Instance AsciiRuntime.ascii_builtins.


Lemma listable_order o : listable (order_to_py o).
Proof. split; eexists; reflexivity. Qed.



(** C3 on the empty list, a blank selection, a word, and the two
    selections next to the range of a one-order list *)
Lemma process_order_refusals_witness :
  process_order [] (World ["1"] [] ∅) = (Ret (msg_no_pending, PNone, []), World ["1"] [] ∅) /\
  refuses [order_a1] (World [" "] [] ∅) msg_cancelled [] /\
  refuses [order_a1] (World ["abc"] [] ∅) msg_invalid_choice [] /\
  refuses [order_a1] (World ["2"] [] ∅) msg_invalid_choice [] /\
  refuses [order_a1] (World ["0"] [] ∅) msg_invalid_choice [].
Proof.
  assert (Hl : Forall listable [order_a1]) by (repeat constructor; apply listable_order).
  split; [now apply (process_order_refusals [] (World ["1"] [] ∅))|].
  split.
  { apply (process_order_refusals [order_a1] (World [" "] [] ∅)) with (line := " ");
      [discriminate | exact Hl | reflexivity | reflexivity]. }
  split.
  { apply (process_order_refusals [order_a1] (World ["abc"] [] ∅)) with (line := "abc");
      [discriminate | exact Hl | reflexivity | vm_compute; discriminate | reflexivity]. }
  split.
  { apply (process_order_refusals [order_a1] (World ["2"] [] ∅)) with (line := "2") (k := 2);
      [discriminate | exact Hl | reflexivity | vm_compute; discriminate | reflexivity
      | cbn [length]; lia]. }
  apply (process_order_refusals [order_a1] (World ["0"] [] ∅)) with (line := "0") (k := 0);
    [discriminate | exact Hl | reflexivity | vm_compute; discriminate | reflexivity
    | cbn [length]; lia].
Defined.

(** Against C3 as stated: a selection that is not an integer and a
    selection out of range are not two kinds of failure, the function
    returns the very same pair for both. *)
Lemma process_order_one_error_kind :
  int_of_str "abc" = None /\ int_of_str "7" = Some 7 /\
  fst (process_order [order_a1] (World ["abc"] [] ∅))
  = Ret ("錯誤：請輸入有效的訂單編號", PNone, [order_a1]) /\
  fst (process_order [order_a1] (World ["7"] [] ∅))
  = Ret ("錯誤：請輸入有效的訂單編號", PNone, [order_a1]) /\
  fst (process_order [order_a1] (World ["abc"] [] ∅))
  = fst (process_order [order_a1] (World ["7"] [] ∅)).
Proof. repeat split; vm_compute; reflexivity. Qed.


(** C2 on a blank id, an id already pending, and a blank customer name *)
Lemma add_order_rejections_witness :
  rejects [order_a1] (World ["  "; "Amy"] [] ∅) msg_empty_id ["Amy"] [prompt_order_id] /\
  rejects [order_a1] (World ["a1"; "Amy"] [] ∅) (msg_duplicate "A1") ["Amy"] [prompt_order_id] /\
  rejects [order_a1] (World ["b2"; " "; "Tea"] [] ∅) msg_empty_customer ["Tea"]
    [prompt_order_id; prompt_customer].
Proof.
  split.
  { destruct (add_order_rejections [order_a1] (World ["  "; "Amy"] [] ∅)) as (H & _).
    apply (H "  " ["Amy"]); reflexivity. }
  split.
  { destruct (add_order_rejections [order_a1] (World ["a1"; "Amy"] [] ∅)) as (_ & H & _).
    apply (H "a1" ["Amy"]).
    - reflexivity.
    - vm_compute. discriminate.
    - repeat constructor. eexists. reflexivity.
    - exists order_a1. split; [now left | reflexivity]. }
  destruct (add_order_rejections [order_a1] (World ["b2"; " "; "Tea"] [] ∅))
    as (_ & _ & H & _).
  apply (H "b2" " " ["Tea"]).
  - reflexivity.
  - vm_compute. discriminate.
  - reflexivity.
  - reflexivity.
Defined.

(** Against C2 as stated.  A pending order whose id differs from the
    entered one only by case does not make the call fail, since the stored
    id is compared as it is; and an empty item list does not make the call
    fail either, the name is asked again (and the end of the input is then
    an [EOFError], not an error message). *)
Lemma add_order_accepts :
  let lower := order_to_py (mkOrder "a1" "Ann" [mkItem "Tea" 30 2]) in
  fst (add_order [lower] (World ["a1"; "Bob"; "Cola"; "20"; "3"; ""] [] ∅))
  = Ret ("訂單 A1 新增成功", [lower; order_a1]) /\
  fst (add_order [] (World ["A1"; "Bob"; ""; "Cola"; "20"; "3"; ""] [] ∅))
  = Ret ("訂單 A1 新增成功", [order_a1]) /\
  fst (add_order [] (World ["A1"; "Bob"; ""] [] ∅)) = Raise EOFError.
Proof. repeat split; vm_compute; reflexivity. Qed.

(** C10 on an entry with a price that does not parse, one with a negative
    price and one with a quantity of zero *)
Lemma add_order_items_valid_witness :
  ([order_a1] = [] \/
   exists id c its, [order_a1] = [] ++ [make_order id c its] /\
                    its <> [] /\ Forall stored_item its) /\
  (exists said,
     item_loop ["Pie"; "-5"; "Cola"; "20"; "3"; ""] [] []
     = item_loop ["Cola"; "20"; "3"; ""] ([] ++ said) []) /\
  (exists said,
     item_loop ["Pie"; "5"; "0"; "Cola"; "20"; "3"; ""] [] []
     = item_loop ["Cola"; "20"; "3"; ""] ([] ++ said) []).
Proof.
  destruct add_order_items_valid as (Hvalid & _ & Hprice & Hquantity).
  split.
  { eapply (Hvalid [] (World ["a1"; "Bob"; "Pie"; "x"; "Cola"; "20"; "3"; ""] [] ∅)).
    vm_compute. reflexivity. }
  split.
  - apply Hprice; [vm_compute; discriminate|].
    right. exists (-5). split; [reflexivity | lia].
  - apply (Hquantity "Pie" "5" "0" 5); [vm_compute; discriminate | reflexivity | lia|].
    right. exists 0. split; [reflexivity | lia].
Defined.

(** Against C10 as stated: an empty name does not end the entry while no
    item is stored; the entry goes on and stores what is typed next. *)
Lemma empty_name_asks_again :
  item_loop [""; "Tea"; "30"; "2"; ""; "x"] [] []
  = (Ret [make_item "Tea" 30 2], ["x"],
     [Prompted prompt_item_name; Printed msg_need_item; Prompted prompt_item_name;
      Prompted prompt_price; Prompted prompt_quantity; Prompted prompt_item_name]) /\
  item_loop [""; "Tea"; "30"; "2"; ""; "x"] [] []
  <> (Ret [], ["Tea"; "30"; "2"; ""; "x"], [Prompted prompt_item_name]).
Proof. split; [vm_compute; reflexivity | discriminate]. Qed.


(** ** The further properties on examples *)

Lemma plain_a1 : Forall plain [order_a1].
Proof.
  apply Forall_cons. split; [apply (plain_order_to_py (mkOrder _ _ _)) | constructor].
Qed.



(** X5 on a pending list whose second order has no customer *)
Lemma process_order_unlistable_witness :
  exists e out,
    process_order [order_a1; PDict [("order_id", PStr "B2")]] (World ["1"] [] ∅)
    = (Raise e, World ["1"] ([] ++ out) ∅) /\
    (e = KeyError \/ e = TypeError).
Proof.
  apply (process_order_unlistable [order_a1; PDict [("order_id", PStr "B2")]]
           (World ["1"] [] ∅)).
  intros H. apply Forall_cons in H as [_ H]. apply Forall_cons in H as [[_ [c Hc]] _].
  discriminate Hc.
Defined.





(** X10 on a first run and the entry of an order *)
Lemma reaches_well_formed_witness :
  exists orders' w',
    reaches [] (World ["1"; "a1"; "Bob"; "Cola"; "20"; "3"; ""] [] ∅) orders' w' /\
    orders' = [order_a1] /\ well_formed orders'.
Proof.
  assert (E : exists orders' w',
            reaches [] (World ["1"; "a1"; "Bob"; "Cola"; "20"; "3"; ""] [] ∅) orders' w' /\
            orders' = [order_a1]).
  { eexists _, _. split; [|reflexivity].
    eapply reaches_next; [apply reaches_start | vm_compute; reflexivity]. }
  destruct E as (orders' & w' & E & Ho). exists orders', w'.
  split; [exact E|]. split; [exact Ho|].
  apply (reaches_well_formed [] (World ["1"; "a1"; "Bob"; "Cola"; "20"; "3"; ""] [] ∅)
           orders' w'); [|exact E].
  exists []. split; [reflexivity|]. split; [constructor | apply NoDup_nil_2].
Defined.






(** X17 on a saved list with a line end and blanks before it and a line
    end after it *)
Lemma load_data_ignores_white_witness :
  let text := String Json.ch_nl "  " +:+ Json.dumps (PList [order_a1])
              +:+ String Json.ch_nl "" in
  let w := World [] [] {[ "orders.json" := text ]} in
  load_data "orders.json" w = (Ret (PList [order_a1]), w).
Proof.
  intros text w.
  apply (load_data_ignores_white "orders.json" (PList [order_a1])
           (String Json.ch_nl "  ") (String Json.ch_nl "") w).
  - constructor. exact plain_a1.
  - reflexivity.
  - reflexivity.
  - reflexivity.
Defined.



(** X20 on the entry of a first order *)
Lemma added_order_total_witness :
  exists n, calculate_order_total order_a1 = Ret n /\ 0 <= n.
Proof.
  eapply (added_order_total [] (World ["a1"; "Bob"; "Cola"; "20"; "3"; ""] [] ∅)).
  vm_compute. reflexivity.
Defined.
